(** * IPU-examples: batch-size reconciliation and the TF1 training driver

    A shallow embedding of

    - [vision/cnns/tensorflow2/batch_config.py] (class [BatchConfig]), and
    - the checkpoint-restore block and the guarded training step of
      [_train_process] in [vision/cnns/tensorflow1/training/train.py],

    together with the properties the specification states about them.

    Beyond the specification, the development covers
    [reconfigure_dataset_constants] and [set_defaults] of
    [vision/cnns/tensorflow1/training/Datasets/data.py], which the driver
    calls, and states further properties of the three files.

    Python integers are [Z]; [//] and [%] are [Z.div] and [Z.modulo] (both
    floor-based, like Python's) guarded by [ZeroDivisionError]; Python
    floats are IEEE 754 binary64 values, represented by the standard
    library's [spec_float] with [prec = 53] and [emax = 1024]; exceptions
    are the left summand of a state-and-error monad. *)

From Stdlib Require Import ZArith Lia List Bool String Ascii Sorted.
From Stdlib Require Import Floats.SpecFloat.
Import ListNotations.
Local Open Scope Z_scope.

(* ===================================================================== *)
(** * Python runtime fragments *)
(* ===================================================================== *)

(** ** Exceptions *)

(** The status codes of [tf.errors]; every class of [tf.errors] derives
    from [tf.errors.OpError] and differs by its code only. *)
Inductive tf_code : Type :=
| CANCELLED | UNKNOWN | INVALID_ARGUMENT | DEADLINE_EXCEEDED | NOT_FOUND
| ALREADY_EXISTS | PERMISSION_DENIED | UNAUTHENTICATED | RESOURCE_EXHAUSTED
| FAILED_PRECONDITION | ABORTED | OUT_OF_RANGE | UNIMPLEMENTED | INTERNAL
| UNAVAILABLE | DATA_LOSS.

Inductive exn : Type :=
| AssertionError
| ValueError (msg : string)
| TypeError
| ZeroDivisionError
| OverflowError
| IndexError
| KeyError (key : string)
| FileNotFoundError (path : string)
| OpError (code : tf_code) (node_def op message : string)
| OtherError (name : string).

(** [tf.errors.ResourceExhaustedError(node_def, op, message)] *)
Definition ResourceExhaustedError (node_def op message : string) : exn :=
  OpError RESOURCE_EXHAUSTED node_def op message.

(** ** A state-and-error monad

    [M S A] is a computation over a mutable store [S] that raises or
    returns a value; the store survives a raise, as the effects of a Python
    statement do. *)
Definition M (S A : Type) : Type := S -> (exn + A) * S.

Definition ret {S A} (a : A) : M S A := fun s => (inr a, s).

Definition bind {S A B} (c : M S A) (k : A -> M S B) : M S B :=
  fun s => match c s with
           | (inl e, s') => (inl e, s')
           | (inr a, s') => k a s'
           end.

Definition raise {S A} (e : exn) : M S A := fun s => (inl e, s).

Definition modify {S} (f : S -> S) : M S unit := fun s => (inr tt, f s).

(** A pure computation that may raise, run inside a store. *)
Definition lift {S A} (r : exn + A) : M S A := fun s => (r, s).

(** [try: c except <handled> as e: h e]: the handler runs in the store the
    body left; exceptions that are not handled propagate. *)
Definition try_except {S A} (c : M S A) (handled : exn -> bool)
    (h : exn -> M S A) : M S A :=
  fun s => match c s with
           | (inl e, s') => if handled e then h e s' else (inl e, s')
           | (inr a, s') => (inr a, s')
           end.

(** [assert b]; the interpreter is taken to run without [-O], which would
    drop the statement. *)
Definition assert_ {S} (b : bool) : M S unit :=
  if b then ret tt else raise AssertionError.

Declare Scope py_scope.
Delimit Scope py_scope with py.
Notation "x <- c ;; k" := (bind c (fun x => k))
  (at level 61, c at next level, right associativity) : py_scope.
Notation "c ;; k" := (bind c (fun _ => k))
  (at level 61, right associativity) : py_scope.
Notation "' pat <- c ;; k" := (bind c (fun x => match x with pat => k end))
  (at level 61, pat pattern, c at next level, right associativity) : py_scope.
Local Open Scope py_scope.

(** ** Integer arithmetic

    Operations that touch no store are values of [exn + A], run inside a
    store by [lift]. *)

(** [a // b] on ints *)
Definition int_floordiv (a b : Z) : exn + Z :=
  if b =? 0 then inl ZeroDivisionError else inr (a / b).

(** [a % b] on ints *)
Definition int_mod (a b : Z) : exn + Z :=
  if b =? 0 then inl ZeroDivisionError else inr (a mod b).

(** Reading an attribute that must hold an int: arithmetic on [None]
    raises [TypeError]. *)
Definition as_int (v : option Z) : exn + Z :=
  match v with
  | Some n => inr n
  | None => inl TypeError
  end.

(** ** Floats (IEEE 754 binary64) *)

Definition prec : Z := 53.
Definition emax : Z := 1024.
Definition float : Type := spec_float.

(** An integer as an exact, unnormalised operand of a float operation. *)
Definition SF_of_Z (n : Z) : float :=
  match n with
  | Z0 => S754_zero false
  | Zpos p => S754_finite false p 0
  | Zneg p => S754_finite true p 0
  end.

Definition not_infinite (x : float) : exn + float :=
  match x with
  | S754_infinity _ => inl OverflowError
  | _ => inr x
  end.

(** [a / b] on two ints ([long_true_divide]): the exact quotient rounded
    once, to nearest even; [OverflowError] when it exceeds the float range.
    [SFdiv] scales the dividend so that the integer quotient has at least
    [prec] bits and rounds it with the remainder's position, whatever the
    size of the two mantissas. *)
Definition int_truediv (a b : Z) : exn + float :=
  if b =? 0 then inl ZeroDivisionError
  else not_infinite (SFdiv prec emax (SF_of_Z a) (SF_of_Z b)).

(** [float(n)] ([PyLong_AsDouble]): nearest-even, [OverflowError] beyond
    the float range. *)
Definition float_of_int (n : Z) : exn + float :=
  not_infinite (binary_normalize prec emax n 0 false).

Definition is_zero (x : float) : bool :=
  match x with
  | S754_zero _ => true
  | _ => false
  end.

(** [x / n] for a float [x] and an int [n] ([float_div]): the int is
    converted first, then the two doubles are divided. *)
Definition float_truediv_int (x : float) (n : Z) : exn + float :=
  match float_of_int n with
  | inl e => inl e
  | inr y => if is_zero y then inl ZeroDivisionError
             else inr (SFdiv prec emax x y)
  end.

(** The magnitude of a finite float cut to an integer by [cut], which gets
    the mantissa and the power of two it is to be divided by. *)
Definition integral (cut : Z -> Z -> Z) (x : float) : exn + Z :=
  match x with
  | S754_zero _ => inr 0
  | S754_finite s m e =>
      inr (cond_Zopp s (if 0 <=? e then Zpos m * 2 ^ e
                        else cut (Zpos m) (2 ^ (- e))))
  | S754_infinity _ => inl OverflowError
  | S754_nan => inl (ValueError "cannot convert float NaN to integer")
  end.

(** [int(x)] on a float: truncation towards zero. *)
Definition int_of_float (x : float) : exn + Z := integral Z.div x.

(** The integer nearest to [m / d], ties to the even one ([0 < d]). *)
Definition div_half_even (m d : Z) : Z :=
  let q := m / d in
  match 2 * (m mod d) ?= d with
  | Lt => q
  | Gt => q + 1
  | Eq => if Z.even q then q else q + 1
  end.

(** [round(x)] on a float, one argument (Python 3, [float.__round__]): the
    nearest int, ties to even. *)
Definition round_float (x : float) : exn + Z := integral div_half_even x.

(* ===================================================================== *)
(** * [batch_config.py] *)
(* ===================================================================== *)

(** The dataclass.  [gradient_accumulation_count] and [global_batch_size]
    are [Optional[int]]; [num_micro_batches_per_weight_update] is
    [field(init=False)], unset ([None] here) until [__post_init__] sets it. *)
Record BatchConfig : Type := {
  micro_batch_size : Z;
  num_replicas : Z;
  gradient_accumulation_count : option Z;
  global_batch_size : option Z;
  num_micro_batches_per_weight_update : option Z
}.

(** What [logging.warning] and [logging.info] are called with, before
    formatting. *)
Inductive log_message : Type :=
| NotDivisible (global_batch_size micro_batch_size num_replicas : Z)
               (quotient : float)
               (rounded_count new_global_batch_size : option Z)
| MicroBatchSizeIs (v : Z)
| GlobalBatchSizeIs (v : option Z)
| GradientAccumulationIs (v : option Z)
| NumReplicasIs (v : Z).

Inductive log_record : Type :=
| WARNING (m : log_message)
| INFO (m : log_message).

Definition is_warning (r : log_record) : bool :=
  match r with
  | WARNING _ => true
  | INFO _ => false
  end.

(** The store of a construction: the object under construction and the
    records logged so far. *)
Record store : Type := {
  self : BatchConfig;
  logged : list log_record
}.

Definition get_self : M store BatchConfig := fun s => (inr (self s), s).

(** [object.__setattr__(self, 'global_batch_size', v)] *)
Definition setattr_global_batch_size (v : Z) : M store unit :=
  modify (fun s =>
    {| self := {| micro_batch_size := micro_batch_size (self s);
                  num_replicas := num_replicas (self s);
                  gradient_accumulation_count := gradient_accumulation_count (self s);
                  global_batch_size := Some v;
                  num_micro_batches_per_weight_update :=
                    num_micro_batches_per_weight_update (self s) |};
       logged := logged s |}).

(** [object.__setattr__(self, 'gradient_accumulation_count', v)] *)
Definition setattr_gradient_accumulation_count (v : Z) : M store unit :=
  modify (fun s =>
    {| self := {| micro_batch_size := micro_batch_size (self s);
                  num_replicas := num_replicas (self s);
                  gradient_accumulation_count := Some v;
                  global_batch_size := global_batch_size (self s);
                  num_micro_batches_per_weight_update :=
                    num_micro_batches_per_weight_update (self s) |};
       logged := logged s |}).

(** [object.__setattr__(self, 'num_micro_batches_per_weight_update', v)] *)
Definition setattr_num_micro_batches_per_weight_update (v : Z) : M store unit :=
  modify (fun s =>
    {| self := {| micro_batch_size := micro_batch_size (self s);
                  num_replicas := num_replicas (self s);
                  gradient_accumulation_count := gradient_accumulation_count (self s);
                  global_batch_size := global_batch_size (self s);
                  num_micro_batches_per_weight_update := Some v |};
       logged := logged s |}).

Definition logging_warning (m : log_message) : M store unit :=
  modify (fun s => {| self := self s; logged := logged s ++ [WARNING m] |}).

Definition logging_info (m : log_message) : M store unit :=
  modify (fun s => {| self := self s; logged := logged s ++ [INFO m] |}).

Definition is_None {A} (v : option A) : bool :=
  match v with
  | None => true
  | Some _ => false
  end.

Definition both_msg : string :=
  "Can not specify both gradient accumulation count and total batch size".
Definition neither_msg : string :=
  "Either gradient accumulation count or total batch size must to be specified".

(** [BatchConfig.__post_init__] *)
Definition __post_init__ : M store unit :=
  s0 <- get_self ;;
  assert_ (0 <? micro_batch_size s0) ;;
  assert_ (0 <? num_replicas s0) ;;
  (if negb (is_None (gradient_accumulation_count s0)
            || is_None (global_batch_size s0))
   then raise (ValueError both_msg)
   else if is_None (gradient_accumulation_count s0)
           && is_None (global_batch_size s0)
   then raise (ValueError neither_msg)
   else ret tt) ;;
  match gradient_accumulation_count s0 with
  | Some gac =>
      assert_ (0 <? gac) ;;
      setattr_global_batch_size
        (micro_batch_size s0 * num_replicas s0 * gac)
  | None =>
      match global_batch_size s0 with
      | Some gbs =>
          assert_ (0 <? gbs) ;;
          let global_batch_size_ := gbs in
          q0 <- lift (int_truediv gbs (micro_batch_size s0)) ;;
          gradient_accumulation_count_ <-
            lift (float_truediv_int q0 (num_replicas s0)) ;;
          r <- lift (int_mod gbs (micro_batch_size s0 * num_replicas s0)) ;;
          if r =? 0 then
            n <- lift (int_of_float gradient_accumulation_count_) ;;
            setattr_gradient_accumulation_count n
          else
            n <- lift (round_float gradient_accumulation_count_) ;;
            setattr_gradient_accumulation_count n ;;
            s1 <- get_self ;;
            gac <- lift (as_int (gradient_accumulation_count s1)) ;;
            setattr_global_batch_size
              (micro_batch_size s1 * num_replicas s1 * gac) ;;
            s2 <- get_self ;;
            logging_warning
              (NotDivisible global_batch_size_ (micro_batch_size s2)
                 (num_replicas s2) gradient_accumulation_count_
                 (gradient_accumulation_count s2) (global_batch_size s2))
      | None => ret tt
      end
  end ;;
  s3 <- get_self ;;
  gac <- lift (as_int (gradient_accumulation_count s3)) ;;
  setattr_num_micro_batches_per_weight_update (gac * num_replicas s3) ;;
  s4 <- get_self ;;
  logging_info (MicroBatchSizeIs (micro_batch_size s4)) ;;
  logging_info (GlobalBatchSizeIs (global_batch_size s4)) ;;
  logging_info (GradientAccumulationIs (gradient_accumulation_count s4)) ;;
  logging_info (NumReplicasIs (num_replicas s4)).

(** The generated [__init__]: stores the four init fields, then runs
    [__post_init__].  The result is the frozen object, or the exception
    that left none, and what was logged. *)
Definition new_BatchConfig (micro_batch_size num_replicas : Z)
    (gradient_accumulation_count global_batch_size : option Z)
  : (exn + BatchConfig) * list log_record :=
  match __post_init__
          {| self := {| micro_batch_size := micro_batch_size;
                        num_replicas := num_replicas;
                        gradient_accumulation_count := gradient_accumulation_count;
                        global_batch_size := global_batch_size;
                        num_micro_batches_per_weight_update := None |};
             logged := [] |}
  with
  | (inl e, s) => (inl e, logged s)
  | (inr _, s) => (inr (self s), logged s)
  end.

(** Methods take the frozen object and touch no store. *)
Definition run {A} (c : M unit A) : exn + A := fst (c tt).

(** [BatchConfig.get_num_micro_batches_per_epoch] *)
Definition get_num_micro_batches_per_epoch (self : BatchConfig)
    (dataset_size : Z) : exn + Z :=
  run (nmb <- lift (as_int (num_micro_batches_per_weight_update self)) ;;
       q <- lift (int_floordiv dataset_size (micro_batch_size self * nmb)) ;;
       ret (q * nmb)).

(** [BatchConfig.get_num_discarded_samples] *)
Definition get_num_discarded_samples (self : BatchConfig)
    (dataset_size num_instances : Z) : exn + Z :=
  run (gbs <- lift (as_int (global_batch_size self)) ;;
       instance_batch_size <- lift (int_floordiv gbs num_instances) ;;
       lift (int_mod dataset_size instance_batch_size)).

(** [BatchConfig.get_num_padding_samples] *)
Definition get_num_padding_samples (self : BatchConfig)
    (num_discarded_samples num_instances : Z) : exn + Z :=
  run (if num_discarded_samples =? 0 then ret 0
       else
         gbs <- lift (as_int (global_batch_size self)) ;;
         instance_batch_size <- lift (int_floordiv gbs num_instances) ;;
         ret (instance_batch_size - num_discarded_samples)).

(* ===================================================================== *)
(** * [train.py]: restoring a run and the guarded training step *)
(* ===================================================================== *)

(** ** Strings

    File names are strings of 8-bit characters; among these the class
    [\d] is exactly ['0'..'9']. *)

Definition newline : ascii := "010"%char.

Definition is_digit (c : ascii) : bool :=
  let n := Z.of_nat (nat_of_ascii c) in (48 <=? n) && (n <=? 57).

Definition digit_value (c : ascii) : Z := Z.of_nat (nat_of_ascii c) - 48.

(** [int(s)] for a string of decimal digits; anything else is a
    [ValueError]. *)
Fixpoint int_of_digits (acc : Z) (s : list ascii) : exn + Z :=
  match s with
  | [] => inr acc
  | c :: s' =>
      if is_digit c then int_of_digits (10 * acc + digit_value c) s'
      else inl (ValueError "invalid literal for int() with base 10")
  end.

Definition int_of_str (s : string) : exn + Z :=
  match list_ascii_of_string s with
  | [] => inl (ValueError "invalid literal for int() with base 10")
  | l => int_of_digits 0 l
  end.

(** [s.startswith(p)] and [s.endswith(p)] for a one-character [p] *)
Definition startswith_char (s : string) (c : ascii) : bool :=
  match s with
  | String c' _ => Ascii.eqb c' c
  | EmptyString => false
  end.

Fixpoint endswith_char (s : string) (c : ascii) : bool :=
  match s with
  | EmptyString => false
  | String c' EmptyString => Ascii.eqb c' c
  | String _ s' => endswith_char s' c
  end.

(** [os.path.join(a, b)] of [posixpath] *)
Definition os_path_join (a b : string) : string :=
  if startswith_char b "/" then b
  else if (String.eqb a "" || endswith_char a "/")%bool then (a ++ b)%string
  else (a ++ "/" ++ b)%string.

(** [sub in s] *)
Fixpoint contains (sub s : string) : bool :=
  if String.prefix sub s then true
  else match s with
       | EmptyString => false
       | String _ s' => contains sub s'
       end.

(** ** Regular expressions

    The fragment of [re] the driver uses: single-character classes, greedy
    repetition of a class, concatenation and capture groups, matched by
    backtracking with the continuation [k]; [seen] is the text consumed so
    far, last character first. *)
Inductive regex : Type :=
| Atom (p : ascii -> bool)
| Star (p : ascii -> bool)
| Seq (r1 r2 : regex)
| Group (n : nat) (r : regex).

Definition groups : Type := list (nat * list ascii).

Section Matcher.
Context {R : Type}.

(** Greedy [p*]: the longest run first, giving characters back one at a
    time while the continuation fails. *)
Fixpoint match_star (p : ascii -> bool) (seen s : list ascii) (g : groups)
    (k : list ascii -> list ascii -> groups -> option R) : option R :=
  match s with
  | c :: s' =>
      if p c then
        match match_star p (c :: seen) s' g k with
        | Some r => Some r
        | None => k seen s g
        end
      else k seen s g
  | [] => k seen s g
  end.

Fixpoint match_regex (r : regex) (seen s : list ascii) (g : groups)
    (k : list ascii -> list ascii -> groups -> option R) : option R :=
  match r with
  | Atom p =>
      match s with
      | c :: s' => if p c then k (c :: seen) s' g else None
      | [] => None
      end
  | Star p => match_star p seen s g k
  | Seq r1 r2 =>
      match_regex r1 seen s g
        (fun seen' s' g' => match_regex r2 seen' s' g' k)
  | Group n r1 =>
      match_regex r1 seen s g
        (fun seen' s' g' =>
           k seen' s'
             ((n, rev (firstn (List.length seen' - List.length seen) seen')) :: g'))
  end.
End Matcher.

Definition Chr (c : ascii) : regex := Atom (Ascii.eqb c).
Definition Dot : regex := Atom (fun c => negb (Ascii.eqb c newline)).
Definition Digit : regex := Atom is_digit.
Definition Plus (p : ascii -> bool) : regex := Seq (Atom p) (Star p).

Fixpoint Lit (s : list ascii) : regex :=
  match s with
  | [] => Star (fun _ => false)
  | [c] => Chr c
  | c :: s' => Seq (Chr c) (Lit s')
  end.

(** [m.group(n)] *)
Fixpoint group (g : groups) (n : nat) : option string :=
  match g with
  | [] => None
  | (n', t) :: g' =>
      if Nat.eqb n' n then Some (string_of_list_ascii t) else group g' n
  end.

(** [re.compile(r).match(s)]: anchored at the start of [s], not at its
    end. *)
Definition re_match (r : regex) (s : string) : option groups :=
  match_regex r [] (list_ascii_of_string s) []
    (fun _ _ g => Some g).

(** [re.compile(r'(.*ckpt-(\d+)).index')] *)
Definition filename_pattern : regex :=
  Seq (Group 1 (Seq (Star (fun c => negb (Ascii.eqb c newline)))
                  (Seq (Lit (list_ascii_of_string "ckpt-"))
                       (Group 2 (Plus is_digit)))))
      (Seq Dot (Lit (list_ascii_of_string "index"))).

(** ** Lists *)

(** [sorted(l, key=lambda x: x[0])]: a stable sort, so an element goes in
    front of the first one whose key is not smaller. *)
Fixpoint insert_by_key {A} (x : Z * A) (l : list (Z * A)) : list (Z * A) :=
  match l with
  | [] => [x]
  | y :: l' => if fst x <=? fst y then x :: y :: l'
               else y :: insert_by_key x l'
  end.

Fixpoint sorted_by_key {A} (l : list (Z * A)) : list (Z * A) :=
  match l with
  | [] => []
  | x :: l' => insert_by_key x (sorted_by_key l')
  end.

(** [l[-1]] *)
Fixpoint last_item {A} (l : list A) : exn + A :=
  match l with
  | [] => inl IndexError
  | [x] => inr x
  | _ :: l' => last_item l'
  end.

(** Keeps the matches of a list of match results, in order:
    [filter(lambda x: x is not None, patterns)]. *)
Fixpoint not_None {A} (l : list (option A)) : list A :=
  match l with
  | [] => []
  | Some x :: l' => x :: not_None l'
  | None :: l' => not_None l'
  end.

(** [list(map(f, l))] for an [f] that may raise: the first raise wins. *)
Fixpoint map_raising {A B} (f : A -> exn + B) (l : list A) : exn + list B :=
  match l with
  | [] => inr []
  | x :: l' =>
      match f x with
      | inl e => inl e
      | inr y =>
          match map_raising f l' with
          | inl e => inl e
          | inr ys => inr (y :: ys)
          end
      end
  end.

(** ** The driver *)

Section TrainProcess.

(** What [session.run] fetches and the numbers numpy makes of it are
    taken as given. *)
Variables ndarray scalar : Type.
Variable zero : scalar.                              (* the int [0] *)
Variable np_mean : ndarray -> scalar.                (* [np.mean(a)] *)
Variable times_100 : scalar -> scalar.               (* [100.0 * x] *)
Variable flatten_last : ndarray -> exn + scalar.     (* [a.flatten()[-1]] *)
Variable scalar_mul : scalar -> scalar -> scalar.    (* [x * y] *)
Variable feed_dict_lr : Z -> exn + scalar.           (* [LR.feed_dict_lr] *)

(** The calls the driver makes to the world outside it, in order. *)
Inductive call : Type :=
| OsListdir (path : string)
| PrintToFileAndScreen (msg : string)
| SaverRestore (save_path : string)
| TimeTime
| SessionRunTrain (learning_rate : scalar)
| SessionRunOutfeed.

(** What the world answers to a call, given the calls made before it. *)
Record outside : Type := {
  os_listdir : list call -> string -> exn + list string;
  print_to_file_and_screen : list call -> string -> exn + unit;
  saver_restore : list call -> string -> exn + unit;
  time_time : list call -> float;
  session_run_train : list call -> scalar -> exn + unit;
  session_run_outfeed :
    list call -> exn + (ndarray * ndarray * ndarray * ndarray);
  TF_POPLAR_FLAGS : option string   (* [os.environ.get('TF_POPLAR_FLAGS')] *)
}.

Variable world : outside.

(** The store of the driver is the history of its calls; a call is
    recorded whether it raises or not. *)
Definition outside_call {A} (c : call) (answer : list call -> exn + A)
  : M (list call) A :=
  fun h => (answer h, h ++ [c]).

(** The options the two blocks read. *)
Record opts : Type := {
  restoring : bool;
  distributed_worker_index : Z;
  logs_path : string;
  pipeline : bool;
  lr_scale : scalar
}.

(** One element of [tuples]:
    [(int(x.group(2)), os.path.join(opts['logs_path'], x.group(1)))] *)
Definition checkpoint_tuple (o : opts) (x : groups) : exn + (Z * string) :=
  match group x 2 with
  | None => inl TypeError
  | Some digits =>
      match int_of_str digits with
      | inl e => inl e
      | inr step =>
          match group x 1 with
          | None => inl TypeError
          | Some path => inr (step, os_path_join (logs_path o) path)
          end
      end
  end.

(** Lines 700-711 of [_train_process], on worker 0 of a restored run; the
    value is the iteration counter [i] once the session is restored. *)
Definition restore_latest_checkpoint (o : opts) : M (list call) Z :=
  names <- outside_call (OsListdir (logs_path o))
             (fun h => os_listdir world h (logs_path o)) ;;
  let patterns := map (re_match filename_pattern) names in
  let filtered := not_None patterns in
  tuples <- lift (map_raising (checkpoint_tuple o) filtered) ;;
  let filenames := sorted_by_key tuples in
  latest_checkpoint <- lift (last_item filenames) ;;
  let msg := ("Restoring training from latest checkpoint: "
              ++ snd latest_checkpoint)%string in
  outside_call (PrintToFileAndScreen msg)
    (fun h => print_to_file_and_screen world h msg) ;;
  let i := fst latest_checkpoint in
  outside_call (SaverRestore (snd latest_checkpoint))
    (fun h => saver_restore world h (snd latest_checkpoint)) ;;
  ret i.

(** Lines 698-699 with the two [else: i = 0] branches around the block:
    the counter as it stands before an optional broadcast to the other
    instances ([use_popdist]). *)
Definition restored_iteration (o : opts) : M (list call) Z :=
  if restoring o then
    if distributed_worker_index o =? 0 then restore_latest_checkpoint o
    else ret 0
  else ret 0.

(** [training_step(train, _e, learning_rate)] *)
Definition training_step (learning_rate : scalar)
  : M (list call) (scalar * scalar * float * scalar) :=
  start <- outside_call TimeTime (fun h => inr (time_time world h)) ;;
  outside_call (SessionRunTrain learning_rate)
    (fun h => session_run_train world h learning_rate) ;;
  now <- outside_call TimeTime (fun h => inr (time_time world h)) ;;
  let batch_time := SFsub prec emax now start in
  if match TF_POPLAR_FLAGS world with
     | None => true
     | Some flags =>
         (String.eqb flags "" || negb (contains "--use_synthetic_data" flags))%bool
     end
  then
    '(loss, _cross_ent, accuracy, lr_out) <-
      outside_call SessionRunOutfeed (session_run_outfeed world) ;;
    let loss := np_mean loss in
    let accuracy := times_100 (np_mean accuracy) in
    lr <- lift (flatten_last lr_out) ;;
    ret (loss, accuracy, batch_time, lr)
  else ret (zero, zero, batch_time, zero).

(** [isinstance(e, tf.errors.OpError)] *)
Definition is_OpError (e : exn) : bool :=
  match e with
  | OpError _ _ _ _ => true
  | _ => false
  end.

(** The suite under [try] at lines 825-828 of [_train_process]. *)
Definition training_suite (o : opts) (i iterations_per_step : Z)
  : M (list call) (scalar * scalar * float * scalar) :=
  learning_rate <- lift (feed_dict_lr (i + iterations_per_step / 2)) ;;
  '(batch_loss, batch_acc, batch_time, current_lr) <-
    training_step learning_rate ;;
  let current_lr :=
    if pipeline o then scalar_mul current_lr (lr_scale o)
    else current_lr in
  ret (batch_loss, batch_acc, batch_time, current_lr).

(** Lines 824-830 of [_train_process]: the training step of iteration [i]
    under its [try], with
    [except tf.errors.OpError as e:
       raise tf.errors.ResourceExhaustedError(e.node_def, e.op, e.message)]. *)
Definition run_training (o : opts) (i iterations_per_step : Z)
  : M (list call) (scalar * scalar * float * scalar) :=
  try_except (training_suite o i iterations_per_step)
    is_OpError
    (fun e =>
       match e with
       | OpError _ node_def op message =>
           raise (ResourceExhaustedError node_def op message)
       | _ => raise e
       end).

End TrainProcess.

Arguments OsListdir {scalar}.
Arguments PrintToFileAndScreen {scalar}.
Arguments SaverRestore {scalar}.
Arguments TimeTime {scalar}.
Arguments SessionRunTrain {scalar}.
Arguments SessionRunOutfeed {scalar}.
Arguments os_listdir {ndarray scalar}.
Arguments print_to_file_and_screen {ndarray scalar}.
Arguments saver_restore {ndarray scalar}.
Arguments time_time {ndarray scalar}.
Arguments session_run_train {ndarray scalar}.
Arguments session_run_outfeed {ndarray scalar}.
Arguments TF_POPLAR_FLAGS {ndarray scalar}.
Arguments outside_call {scalar A}.
Arguments restoring {scalar}.
Arguments distributed_worker_index {scalar}.
Arguments logs_path {scalar}.
Arguments pipeline {scalar}.
Arguments lr_scale {scalar}.
Arguments checkpoint_tuple {scalar}.
Arguments restore_latest_checkpoint {ndarray scalar}.
Arguments restored_iteration {ndarray scalar}.
Arguments training_step {ndarray scalar}.
Arguments training_suite {ndarray scalar}.
Arguments run_training {ndarray scalar}.

From Stdlib Require DecimalString.
(* ===================================================================== *)
(** * [Datasets/data.py] *)
(* ===================================================================== *)

(** ** Text *)

(** [str(n)] of an int, as ['{}'.format(n)] and an f-string print it. *)
Definition str_int (n : Z) : string :=
  DecimalString.NilZero.string_of_int (Z.to_int n).

Fixpoint zeros (k : nat) : string :=
  match k with
  | O => EmptyString
  | S k' => String "0" (zeros k')
  end.

(** ['%05d' % i] for the [i] of a [range]: at least five digits. *)
Definition percent_05d (i : nat) : string :=
  let digits := str_int (Z.of_nat i) in
  (zeros (5 - String.length digits) ++ digits)%string.

(** [range(n)] *)
Definition range (n : Z) : list nat := seq 0 (Z.to_nat n).

(** [len(l)] *)
Definition len {A} (l : list A) : Z := Z.of_nat (List.length l).

(** [c.lower()] on an 8-bit character: the letters [A-Z] and the capital
    letters of Latin-1. *)
Definition lower_char (c : ascii) : ascii :=
  let n := nat_of_ascii c in
  if ((65 <=? n) && (n <=? 90)
      || (192 <=? n) && (n <=? 222) && negb (n =? 215))%nat%bool
  then ascii_of_nat (n + 32)
  else c.

(** [s.lower()] *)
Fixpoint lower (s : string) : string :=
  match s with
  | EmptyString => EmptyString
  | String c s' => String (lower_char c) (lower s')
  end.

(** [os.path.basename(p)] of [posixpath]: what follows the last slash. *)
Fixpoint basename (p : string) : string :=
  match p with
  | EmptyString => EmptyString
  | String c p' =>
      if contains "/" p' then basename p'
      else if Ascii.eqb c "/" then p'
      else p
  end.

(** [x in l] on a list of strings *)
Definition in_list (x : string) (l : list string) : bool :=
  existsb (String.eqb x) l.

(** ** The module's constants *)

(** One entry of [DATASET_CONSTANTS].  [RECORD_BYTES] is a key of the CIFAR
    entries only, and [UNSCALED_NUM_IMAGES] is a key once
    [reconfigure_dataset_constants] has added it. *)
Record dataset_constants : Type := {
  IMAGE_WIDTH : Z;
  IMAGE_HEIGHT : Z;
  NUM_CLASSES : Z;
  NUM_IMAGES : Z;
  NUM_VALIDATION_IMAGES : Z;
  SHUFFLE_BUFFER : Z;
  RECORD_BYTES : option Z;
  UNSCALED_NUM_IMAGES : option Z;
  FILENAMES_TRAIN : list string;
  FILENAMES_TEST : list string
}.

(** [DATASET_CONSTANTS], by its three keys ['imagenet'], ['cifar-10'] and
    ['cifar-100']. *)
Record constants : Type := {
  imagenet : dataset_constants;
  cifar_10 : dataset_constants;
  cifar_100 : dataset_constants
}.

Definition imagenet_train_files (n : Z) : list string :=
  map (fun i => ("train-" ++ percent_05d i ++ "-of-01024")%string) (range n).

Definition imagenet_test_files (n : Z) : list string :=
  map (fun i => ("validation-" ++ percent_05d i ++ "-of-00128")%string)
    (range n).

(** The value the module starts with. *)
Definition DATASET_CONSTANTS : constants :=
  {| imagenet :=
       {| IMAGE_WIDTH := 224; IMAGE_HEIGHT := 224; NUM_CLASSES := 1000;
          NUM_IMAGES := 1281167; NUM_VALIDATION_IMAGES := 50000;
          SHUFFLE_BUFFER := 10000; RECORD_BYTES := None;
          UNSCALED_NUM_IMAGES := None;
          FILENAMES_TRAIN := imagenet_train_files 1024;
          FILENAMES_TEST := imagenet_test_files 128 |};
     cifar_10 :=
       {| IMAGE_WIDTH := 32; IMAGE_HEIGHT := 32; NUM_CLASSES := 10;
          NUM_IMAGES := 50000; NUM_VALIDATION_IMAGES := 10000;
          SHUFFLE_BUFFER := 50000; RECORD_BYTES := Some (32 * 32 * 3 + 1);
          UNSCALED_NUM_IMAGES := None;
          FILENAMES_TRAIN :=
            map (fun i => ("data_batch_" ++ str_int (Z.of_nat i) ++ ".bin")%string)
              (seq 1 5);
          FILENAMES_TEST := ["test_batch.bin"%string] |};
     cifar_100 :=
       {| IMAGE_WIDTH := 32; IMAGE_HEIGHT := 32; NUM_CLASSES := 100;
          NUM_IMAGES := 50000; NUM_VALIDATION_IMAGES := 10000;
          SHUFFLE_BUFFER := 50000; RECORD_BYTES := Some (32 * 32 * 3 + 2);
          UNSCALED_NUM_IMAGES := None;
          FILENAMES_TRAIN := ["train.bin"%string];
          FILENAMES_TEST := ["test.bin"%string] |} |}.

(** [constants[name]]; any other key is a [KeyError]. *)
Definition getitem (c : constants) (name : option string)
  : exn + dataset_constants :=
  match name with
  | None => inl (KeyError "None")
  | Some n =>
      if String.eqb n "imagenet" then inr (imagenet c)
      else if String.eqb n "cifar-10" then inr (cifar_10 c)
      else if String.eqb n "cifar-100" then inr (cifar_100 c)
      else inl (KeyError n)
  end.

(** What the module writes: lines on the standard output and warnings. *)
Inductive output : Type :=
| Printed (line : string)
| Warned (msg : string).

(** The state of the module: its constants, shared by every caller, and
    what it has written. *)
Record data_module : Type := {
  the_constants : constants;
  written : list output
}.

Definition print (line : string) : M data_module unit :=
  modify (fun s => {| the_constants := the_constants s;
                      written := written s ++ [Printed line] |}).

Definition warnings_warn (msg : string) : M data_module unit :=
  modify (fun s => {| the_constants := the_constants s;
                      written := written s ++ [Warned msg] |}).

Definition get_constants : M data_module constants :=
  fun s => (inr (the_constants s), s).

Definition set_imagenet (d : dataset_constants) : M data_module unit :=
  modify (fun s =>
    {| the_constants := {| imagenet := d;
                           cifar_10 := cifar_10 (the_constants s);
                           cifar_100 := cifar_100 (the_constants s) |};
       written := written s |}).

(** [if 'UNSCALED_NUM_IMAGES' not in dataset:
       dataset['UNSCALED_NUM_IMAGES'] = dataset['NUM_IMAGES']] *)
Definition remember_unscaled (d : dataset_constants) : dataset_constants :=
  match UNSCALED_NUM_IMAGES d with
  | Some _ => d
  | None =>
      {| IMAGE_WIDTH := IMAGE_WIDTH d; IMAGE_HEIGHT := IMAGE_HEIGHT d;
         NUM_CLASSES := NUM_CLASSES d; NUM_IMAGES := NUM_IMAGES d;
         NUM_VALIDATION_IMAGES := NUM_VALIDATION_IMAGES d;
         SHUFFLE_BUFFER := SHUFFLE_BUFFER d; RECORD_BYTES := RECORD_BYTES d;
         UNSCALED_NUM_IMAGES := Some (NUM_IMAGES d);
         FILENAMES_TRAIN := FILENAMES_TRAIN d;
         FILENAMES_TEST := FILENAMES_TEST d |}
  end.

(** [d['NUM_IMAGES'] = n; d['FILENAMES'] = {'TRAIN': train, 'TEST': test}] *)
Definition reduced (d : dataset_constants) (n : Z)
    (train test : list string) : dataset_constants :=
  {| IMAGE_WIDTH := IMAGE_WIDTH d; IMAGE_HEIGHT := IMAGE_HEIGHT d;
     NUM_CLASSES := NUM_CLASSES d; NUM_IMAGES := n;
     NUM_VALIDATION_IMAGES := NUM_VALIDATION_IMAGES d;
     SHUFFLE_BUFFER := SHUFFLE_BUFFER d; RECORD_BYTES := RECORD_BYTES d;
     UNSCALED_NUM_IMAGES := UNSCALED_NUM_IMAGES d;
     FILENAMES_TRAIN := train;
     FILENAMES_TEST := test |}.

Definition already_invoked (stack : string) : string :=
  ("reconfigure_dataset_constants() already invoked, skipping."
   ++ String newline stack)%string.

Definition reducing (what : string) (before after pct : Z) : string :=
  ("DEBUG: Reducing " ++ what ++ " from " ++ str_int before ++ " to "
   ++ str_int after ++ " due to dataset_percentage_to_use of "
   ++ str_int pct)%string.

(** [reconfigure_dataset_constants(opts)], reading [opts['dataset']] and
    [opts['dataset_percentage_to_use']]; [stack] is the text of
    [traceback.extract_stack()] at the call.  The value is the module's
    dictionary itself. *)
Definition reconfigure_dataset_constants (dataset : option string)
    (dataset_percentage_to_use : Z) (stack : string)
  : M data_module constants :=
  modify (fun s =>
    {| the_constants :=
         {| imagenet := remember_unscaled (imagenet (the_constants s));
            cifar_10 := remember_unscaled (cifar_10 (the_constants s));
            cifar_100 := remember_unscaled (cifar_100 (the_constants s)) |};
       written := written s |}) ;;
  c <- get_constants ;;
  if (match dataset with
      | Some n => String.eqb n "imagenet"
      | None => false
      end && (dataset_percentage_to_use <? 100))%bool
  then
    unscaled <- lift (as_int (UNSCALED_NUM_IMAGES (imagenet c))) ;;
    if negb (unscaled =? NUM_IMAGES (imagenet c)) then
      warnings_warn (already_invoked stack) ;;
      get_constants
    else
      let old_num_images := NUM_IMAGES (imagenet c) in
      let old_num_train_files := len (FILENAMES_TRAIN (imagenet c)) in
      let old_num_test_files := len (FILENAMES_TEST (imagenet c)) in
      let num_images :=
        dataset_percentage_to_use * NUM_IMAGES (imagenet c) / 100 in
      let num_train_files :=
        len (FILENAMES_TRAIN (imagenet c)) * dataset_percentage_to_use / 100 in
      let num_test_files :=
        len (FILENAMES_TEST (imagenet c)) * dataset_percentage_to_use / 100 in
      set_imagenet
        (reduced (imagenet c) num_images
           (imagenet_train_files num_train_files)
           (imagenet_test_files num_test_files)) ;;
      let pct := dataset_percentage_to_use in
      print (reducing "NUM_IMAGES" old_num_images num_images pct) ;;
      print (reducing "num_train_files" old_num_train_files num_train_files pct) ;;
      print (reducing "num_test_files" old_num_test_files num_test_files pct) ;;
      get_constants
  else get_constants.

(** Lines 615-623 of [_train_process]:
    [iterations_per_epoch = dataset_constants[opts['dataset']]['NUM_IMAGES']
                            // opts['global_batch_size']]
    on the dictionary [reconfigure_dataset_constants] returned. *)
Definition iterations_per_epoch (dataset : option string)
    (dataset_percentage_to_use global_batch_size : Z) (stack : string)
  : M data_module Z :=
  dataset_constants_ <-
    reconfigure_dataset_constants dataset dataset_percentage_to_use stack ;;
  entry <- lift (getitem dataset_constants_ dataset) ;;
  lift (int_floordiv (NUM_IMAGES entry) global_batch_size).

(** ** [set_defaults] *)

Module Data.

(** The keys of [opts] that [set_defaults] reads and writes. *)
Record opts : Type := {
  fused_preprocessing : bool;
  dataset : option string;
  hostside_norm : bool;
  eight_bit_io : bool;
  generated_data : bool;
  synthetic_data : bool;
  cutmix_lambda : float;
  mixup_alpha : float;
  data_dir : option string;
  latency : bool;
  summary_str : string;
  pipeline_num_parallel : option Z
}.

(** What the function asks of the machine it runs on. *)
Record machine : Type := {
  DATA_DIR : option string;                      (* [os.environ['DATA_DIR']] *)
  os_path_exists : string -> bool;
  os_walk : string -> list (string * list string); (* each [(root, files)] *)
  os_path_normpath : string -> string
}.

(** The store: the dictionary [opts] and the lines printed. *)
Record store : Type := {
  the_opts : opts;
  printed : list string
}.

Definition get_opts : M store opts := fun s => (inr (the_opts s), s).

Definition set_opts (f : opts -> opts) : M store unit :=
  modify (fun s => {| the_opts := f (the_opts s); printed := printed s |}).

Definition print (line : string) : M store unit :=
  modify (fun s => {| the_opts := the_opts s;
                      printed := printed s ++ [line] |}).

Definition set_fused_preprocessing (v : bool) (o : opts) : opts :=
  {| fused_preprocessing := v; dataset := dataset o;
     hostside_norm := hostside_norm o; eight_bit_io := eight_bit_io o;
     generated_data := generated_data o; synthetic_data := synthetic_data o;
     cutmix_lambda := cutmix_lambda o; mixup_alpha := mixup_alpha o;
     data_dir := data_dir o; latency := latency o;
     summary_str := summary_str o;
     pipeline_num_parallel := pipeline_num_parallel o |}.

Definition set_hostside_norm (v : bool) (o : opts) : opts :=
  {| fused_preprocessing := fused_preprocessing o; dataset := dataset o;
     hostside_norm := v; eight_bit_io := eight_bit_io o;
     generated_data := generated_data o; synthetic_data := synthetic_data o;
     cutmix_lambda := cutmix_lambda o; mixup_alpha := mixup_alpha o;
     data_dir := data_dir o; latency := latency o;
     summary_str := summary_str o;
     pipeline_num_parallel := pipeline_num_parallel o |}.

Definition set_mixing (cutmix mixup : float) (o : opts) : opts :=
  {| fused_preprocessing := fused_preprocessing o; dataset := dataset o;
     hostside_norm := hostside_norm o; eight_bit_io := eight_bit_io o;
     generated_data := generated_data o; synthetic_data := synthetic_data o;
     cutmix_lambda := cutmix; mixup_alpha := mixup;
     data_dir := data_dir o; latency := latency o;
     summary_str := summary_str o;
     pipeline_num_parallel := pipeline_num_parallel o |}.

Definition set_dataset (v : option string) (o : opts) : opts :=
  {| fused_preprocessing := fused_preprocessing o; dataset := v;
     hostside_norm := hostside_norm o; eight_bit_io := eight_bit_io o;
     generated_data := generated_data o; synthetic_data := synthetic_data o;
     cutmix_lambda := cutmix_lambda o; mixup_alpha := mixup_alpha o;
     data_dir := data_dir o; latency := latency o;
     summary_str := summary_str o;
     pipeline_num_parallel := pipeline_num_parallel o |}.

Definition set_data_dir (v : option string) (o : opts) : opts :=
  {| fused_preprocessing := fused_preprocessing o; dataset := dataset o;
     hostside_norm := hostside_norm o; eight_bit_io := eight_bit_io o;
     generated_data := generated_data o; synthetic_data := synthetic_data o;
     cutmix_lambda := cutmix_lambda o; mixup_alpha := mixup_alpha o;
     data_dir := v; latency := latency o;
     summary_str := summary_str o;
     pipeline_num_parallel := pipeline_num_parallel o |}.

Definition set_latency (v : bool) (o : opts) : opts :=
  {| fused_preprocessing := fused_preprocessing o; dataset := dataset o;
     hostside_norm := hostside_norm o; eight_bit_io := eight_bit_io o;
     generated_data := generated_data o; synthetic_data := synthetic_data o;
     cutmix_lambda := cutmix_lambda o; mixup_alpha := mixup_alpha o;
     data_dir := data_dir o; latency := v;
     summary_str := summary_str o;
     pipeline_num_parallel := pipeline_num_parallel o |}.

(** [opts['summary_str'] += text] *)
Definition add_summary (text : string) (o : opts) : opts :=
  {| fused_preprocessing := fused_preprocessing o; dataset := dataset o;
     hostside_norm := hostside_norm o; eight_bit_io := eight_bit_io o;
     generated_data := generated_data o; synthetic_data := synthetic_data o;
     cutmix_lambda := cutmix_lambda o; mixup_alpha := mixup_alpha o;
     data_dir := data_dir o; latency := latency o;
     summary_str := (summary_str o ++ text)%string;
     pipeline_num_parallel := pipeline_num_parallel o |}.

Definition set_pipeline_num_parallel (v : option Z) (o : opts) : opts :=
  {| fused_preprocessing := fused_preprocessing o; dataset := dataset o;
     hostside_norm := hostside_norm o; eight_bit_io := eight_bit_io o;
     generated_data := generated_data o; synthetic_data := synthetic_data o;
     cutmix_lambda := cutmix_lambda o; mixup_alpha := mixup_alpha o;
     data_dir := data_dir o; latency := latency o;
     summary_str := summary_str o;
     pipeline_num_parallel := v |}.

(** The floats [1.] and [0.]. *)
Definition one : float := S754_finite false 4503599627370496 (-52).
Definition zero : float := S754_zero false.

(** ['{}'.format(v)] of a string or [None] *)
Definition str_of (v : option string) : string :=
  match v with
  | Some s => s
  | None => "None"
  end.

(** Truth of a string or [None] *)
Definition nonempty (v : option string) : bool :=
  match v with
  | Some s => negb (String.eqb s "")
  | None => false
  end.

Definition no_dataset_msg : string :=
  "Please specify the generated or synthetic dataset using --dataset.".
(** [OSError("Cannot find Cifar/ImageNet data. ...")] *)
Definition no_data_error : exn := OtherError "OSError".
Definition cannot_infer_msg : string :=
  "Cannot infer the dataset being used. Please specify using --dataset".

(** The dictionary literal [default_dir] is looked up in. *)
Definition default_dirs (name : string) : exn + string :=
  if String.eqb name "cifar-100" then inr "cifar-100-binary"%string
  else if String.eqb name "cifar-10" then inr "cifar-10-batches-bin"%string
  else if String.eqb name "imagenet" then inr "imagenet-data"%string
  else inl (KeyError name).

(** The [for root, _, files in os.walk(...)] loop with its [break]. *)
Fixpoint search (default_dir first_training_file : string)
    (walk : list (string * list string)) : option string :=
  match walk with
  | [] => None
  | (root, files) :: walk' =>
      if (String.eqb (basename root) default_dir
          && in_list first_training_file files)%bool
      then Some root
      else search default_dir first_training_file walk'
  end.

(** [l[0]] *)
Definition first_item {A} (l : list A) : exn + A :=
  match l with
  | x :: _ => inr x
  | [] => inl IndexError
  end.

(** The first statements of [set_defaults] (lines 481-489): the flags that
    exclude one another. *)
Definition reconcile_flags : M store unit :=
  o <- get_opts ;;
  (if (fused_preprocessing o
       && negb (match dataset o with
                | Some n => String.eqb n "imagenet"
                | None => false
                end))%bool
   then
     print "Fused preprocessing is only available for imagenet dataset. Disabling fused preprocessing" ;;
     set_opts (set_fused_preprocessing false)
   else ret tt) ;;
  o <- get_opts ;;
  (if (fused_preprocessing o && hostside_norm o)%bool
   then
     print "Fused preprocessing requires IPU-side normalisation, setting to IPU-side normalisation" ;;
     set_opts (set_hostside_norm false)
   else ret tt) ;;
  o <- get_opts ;;
  (if (hostside_norm o && eight_bit_io o)%bool
   then
     print "8-bit IO requires IPU-side normalisation, setting to IPU-side normalisation" ;;
     set_opts (set_hostside_norm false)
   else ret tt).

(** Lines 490-537: the data set and where it is; [consts] is the module's
    [DATASET_CONSTANTS] at the call. *)
Definition settle_data (m : machine) (consts : constants) : M store unit :=
  o <- get_opts ;;
  (if (generated_data o || synthetic_data o)%bool
   then
     (if (SFltb (cutmix_lambda o) one || SFltb zero (mixup_alpha o))%bool
      then print "Cutmix and Mixup do not do anything when using generated or synthetic data. Turning off."
      else ret tt) ;;
     set_opts (set_mixing one zero) ;;
     o <- get_opts ;;
     if is_None (dataset o) then raise (ValueError no_dataset_msg)
     else ret tt
   else
     (if is_None (data_dir o)
      then
        match DATA_DIR m with
        | Some d => set_opts (set_data_dir (Some d))
        | None => raise no_data_error
        end
      else ret tt) ;;
     o <- get_opts ;;
     (if is_None (dataset o)
      then
        let datadir := lower (str_of (data_dir o)) in
        if contains "imagenet" datadir
        then set_opts (set_dataset (Some "imagenet"%string))
        else if (contains "cifar100" datadir
                 || contains "cifar-100" datadir)%bool
        then set_opts (set_dataset (Some "cifar-100"%string))
        else if contains "cifar" datadir
        then set_opts (set_dataset (Some "cifar-10"%string))
        else raise (ValueError cannot_infer_msg)
      else ret tt) ;;
     o <- get_opts ;;
     entry <- lift (getitem consts (dataset o)) ;;
     first_training_file <- lift (first_item (FILENAMES_TRAIN entry)) ;;
     if negb (os_path_exists m
                (os_path_join (str_of (data_dir o)) first_training_file))
     then
       default_dir <- lift (default_dirs (str_of (dataset o))) ;;
       match search default_dir first_training_file
               (os_walk m (str_of (data_dir o))) with
       | None =>
           raise (ValueError
                    ("No " ++ str_of (dataset o)
                     ++ " dataset found. Searched in " ++ str_of (data_dir o)
                     ++ " for "
                     ++ os_path_join default_dir first_training_file)%string)
       | Some root => set_opts (set_data_dir (Some root))
       end
     else ret tt).

(** Lines 539-556: the last settings and the summary. *)
Definition finish (m : machine) : M store unit :=
  o <- get_opts ;;
  (if (synthetic_data o && latency o)%bool
   then
     print "latency calculation is incompatible with synthetic data mode. Disabling latency." ;;
     set_opts (set_latency false)
   else ret tt) ;;
  o <- get_opts ;;
  set_opts (add_summary (str_of (dataset o) ++ String newline "")) ;;
  o <- get_opts ;;
  (if nonempty (data_dir o)
   then set_opts (set_data_dir
                    (Some (os_path_normpath m (str_of (data_dir o)))))
   else ret tt) ;;
  o <- get_opts ;;
  (match pipeline_num_parallel o with
   | Some n =>
       if n =? 0 then set_opts (set_pipeline_num_parallel (Some 48))
       else set_opts (add_summary
                        (" Pipeline Num Parallel: " ++ str_int n
                         ++ String newline ""))
   | None => set_opts (set_pipeline_num_parallel (Some 48))
   end) ;;
  o <- get_opts ;;
  (if generated_data o
   then set_opts (add_summary (" Generated random Data" ++ String newline ""))
   else ret tt) ;;
  o <- get_opts ;;
  (if synthetic_data o
   then set_opts (add_summary (" Synthetic Data" ++ String newline ""))
   else ret tt).

(** [set_defaults(opts)] *)
Definition set_defaults (m : machine) (consts : constants) : M store unit :=
  reconcile_flags ;;
  settle_data m consts ;;
  finish m.

End Data.

(* ===================================================================== *)
(** * Vocabulary of the specification *)
(* ===================================================================== *)

(** The derived invariant of the data model:
    [global_batch_size == micro_batch_size * num_replicas *
    gradient_accumulation_count]. *)
Definition invariant (c : BatchConfig) : Prop :=
  exists gac gbs,
    gradient_accumulation_count c = Some gac /\
    global_batch_size c = Some gbs /\
    gbs = micro_batch_size c * num_replicas c * gac.

(** A fully resolved object. *)
Definition resolved (mbs nr gac gbs : Z) : BatchConfig :=
  {| micro_batch_size := mbs;
     num_replicas := nr;
     gradient_accumulation_count := Some gac;
     global_batch_size := Some gbs;
     num_micro_batches_per_weight_update := Some (gac * nr) |}.

(** The four records every completed construction ends with. *)
Definition info_records (c : BatchConfig) : list log_record :=
  [INFO (MicroBatchSizeIs (micro_batch_size c));
   INFO (GlobalBatchSizeIs (global_batch_size c));
   INFO (GradientAccumulationIs (gradient_accumulation_count c));
   INFO (NumReplicasIs (num_replicas c))].

Definition warnings (l : list log_record) : list log_record :=
  filter is_warning l.

(** The float the global-batch-size branch computes:
    [global_batch_size / micro_batch_size / num_replicas]. *)
Definition float_quotient (gbs mbs nr : Z) : exn + float :=
  match int_truediv gbs mbs with
  | inl e => inl e
  | inr q0 => float_truediv_int q0 nr
  end.

(** A configuration error: what a rejected construction raises. *)
Definition configuration_error (e : exn) : Prop :=
  e = AssertionError \/ e = ValueError both_msg \/ e = ValueError neither_msg.

(** The float that holds the integer [k] exactly, [0 < k < 2 ^ 53]: the
    mantissa is [k] shifted up to 53 bits. *)
Definition float_of_small (k : Z) : float :=
  S754_finite false (Z.to_pos (k * 2 ^ (prec - Zdigits2 k)))
    (Zdigits2 k - prec).

(** Zeros, infinities, NaN and the positive finite floats. *)
Definition not_negative (x : float) : Prop :=
  match x with
  | S754_finite true _ _ => False
  | _ => True
  end.

(** What it means for a regular expression to match the text [w],
    extending the captured groups [g] to [g']. *)
Inductive matches : regex -> list ascii -> groups -> groups -> Prop :=
| matches_Atom p c g :
    p c = true -> matches (Atom p) [c] g g
| matches_Star p w g :
    forallb p w = true -> matches (Star p) w g g
| matches_Seq r1 r2 w1 w2 g g' g'' :
    matches r1 w1 g g' -> matches r2 w2 g' g'' ->
    matches (Seq r1 r2) (w1 ++ w2) g g''
| matches_Group n r w g g' :
    matches r w g g' -> matches (Group n r) w g ((n, w) :: g').

(** A name the pattern [(.*ckpt-(\d+)).index] accepts, with the texts of
    its two groups: anything without a newline, [ckpt-], a run of digits,
    one character that is no newline, [index], and anything after. *)
Definition checkpoint_index (name stem digits : list ascii) : Prop :=
  exists pre c rest,
    name = pre ++ list_ascii_of_string "ckpt-" ++ digits
               ++ c :: list_ascii_of_string "index" ++ rest /\
    stem = pre ++ list_ascii_of_string "ckpt-" ++ digits /\
    forallb (fun c => negb (Ascii.eqb c newline)) pre = true /\
    digits <> [] /\ forallb is_digit digits = true /\
    Ascii.eqb c newline = false.

(** The checkpoint a directory entry stands for: the entry matches the
    pattern, [step] is the integer its second group spells and [path] its
    first group under the log directory. *)
Definition checkpoint_of {scalar} (o : opts scalar) (name : string)
    (step : Z) (path : string) : Prop :=
  exists g stem digits,
    re_match filename_pattern name = Some g /\
    group g 1 = Some stem /\ group g 2 = Some digits /\
    int_of_str digits = inr step /\
    path = os_path_join (logs_path o) stem.

(** The message printed before the session is restored. *)
Definition restoring_msg (path : string) : string :=
  ("Restoring training from latest checkpoint: " ++ path)%string.

(** Keys in ascending order. *)
Definition by_key {A} (x y : Z * A) : Prop := fst x <= fst y.

(** A log directory and a device for the worked examples: three
    checkpoints among other files, and a device whose training op fails. *)
Definition example_opts : opts Z :=
  {| restoring := true;
     distributed_worker_index := 0;
     logs_path := "logs";
     pipeline := false;
     lr_scale := 1 |}.

Definition out_of_memory : exn :=
  OpError INTERNAL "node" "train_op" "Out of memory".

Definition example_world : outside unit Z :=
  {| os_listdir := fun _ _ =>
       inr ["checkpoint"; "model.ckpt-100.index"; "model.ckpt-250.index";
            "model.ckpt-250.data-00000-of-00001"; "model.ckpt-30.index";
            "log.txt"]%string;
     print_to_file_and_screen := fun _ _ => inr tt;
     saver_restore := fun _ _ => inr tt;
     time_time := fun h =>
       binary_normalize prec emax (Z.of_nat (List.length h)) 0 false;
     session_run_train := fun _ _ => inl out_of_memory;
     session_run_outfeed := fun _ => inr (tt, tt, tt, tt);
     TF_POPLAR_FLAGS := None |}.

(** ** The data set constants and [set_defaults] *)

(** An entry whose image count is still the unscaled one. *)
Definition pristine (d : dataset_constants) : Prop :=
  UNSCALED_NUM_IMAGES d = None \/ UNSCALED_NUM_IMAGES d = Some (NUM_IMAGES d).

(** An entry that records [u] images and counts no more than them. *)
Definition scaled_from (u : Z) (d : dataset_constants) : Prop :=
  UNSCALED_NUM_IMAGES d = Some u /\ NUM_IMAGES d <= u.

(** The module after a series of calls of [reconfigure_dataset_constants],
    each with its [opts['dataset']], its [opts['dataset_percentage_to_use']]
    and its stack. *)
Definition reconfigure_all (calls : list (option string * Z * string))
    (s : data_module) : data_module :=
  fold_left
    (fun s call =>
       snd (reconfigure_dataset_constants (fst (fst call)) (snd (fst call))
              (snd call) s))
    calls s.

(** The module as it is loaded. *)
Definition loaded_module : data_module :=
  {| the_constants := DATASET_CONSTANTS; written := [] |}.


(** The data set a directory is taken to hold. *)
Definition inferred (start : string) : option string :=
  if contains "imagenet" (lower start) then Some "imagenet"%string
  else if (contains "cifar100" (lower start)
           || contains "cifar-100" (lower start))%bool
  then Some "cifar-100"%string
  else if contains "cifar" (lower start) then Some "cifar-10"%string
  else None.

(** A machine with ImageNet one directory below [$DATA_DIR]. *)
Definition example_machine : Data.machine :=
  {| Data.DATA_DIR := Some "/Data/ImageNet"%string;
     Data.os_path_exists := fun _ => false;
     Data.os_walk := fun _ =>
       [("/Data/ImageNet", []);
        ("/Data/ImageNet/imagenet-data",
         ["train-00000-of-01024"; "train-00001-of-01024"])]%string;
     Data.os_path_normpath := fun p => p |}.

(** A machine with no data at all. *)
Definition bare_machine : Data.machine :=
  {| Data.DATA_DIR := None;
     Data.os_path_exists := fun _ => false;
     Data.os_walk := fun _ => [];
     Data.os_path_normpath := fun p => p |}.

Definition real_data_store : Data.store :=
  {| Data.the_opts :=
       {| Data.fused_preprocessing := true; Data.dataset := None;
          Data.hostside_norm := true; Data.eight_bit_io := true;
          Data.generated_data := false; Data.synthetic_data := false;
          Data.cutmix_lambda := Data.one; Data.mixup_alpha := Data.zero;
          Data.data_dir := None; Data.latency := true;
          Data.summary_str := ""; Data.pipeline_num_parallel := Some 0 |};
     Data.printed := [] |}.

Definition synthetic_data_store : Data.store :=
  {| Data.the_opts :=
       {| Data.fused_preprocessing := true;
          Data.dataset := Some "cifar-10"%string;
          Data.hostside_norm := true; Data.eight_bit_io := false;
          Data.generated_data := false; Data.synthetic_data := true;
          Data.cutmix_lambda := Data.zero; Data.mixup_alpha := Data.one;
          Data.data_dir := None; Data.latency := true;
          Data.summary_str := ""; Data.pipeline_num_parallel := None |};
     Data.printed := [] |}.

(** ** More of the driver's world *)

(** A world that trains on synthetic data. *)
Definition synthetic_world : outside unit Z :=
  {| os_listdir := fun _ _ => inr ["log.txt"]%string;
     print_to_file_and_screen := fun _ _ => inr tt;
     saver_restore := fun _ _ => inr tt;
     time_time := fun h =>
       binary_normalize prec emax (Z.of_nat (List.length h)) 0 false;
     session_run_train := fun _ _ => inr tt;
     session_run_outfeed := fun _ => inr (tt, tt, tt, tt);
     TF_POPLAR_FLAGS :=
       Some "--use_synthetic_data --synthetic_data_initializer=random"%string |}.

(* ===================================================================== *)
(** * Float arithmetic on small integers *)
(* ===================================================================== *)

Lemma digits2_pos_size p : digits2_pos p = Pos.size p.
Proof. induction p; simpl; congruence. Qed.

Lemma Zdigits2_log2 z : 0 < z -> Zdigits2 z = Z.log2 z + 1.
Proof.
  destruct z as [|p|p]; try lia. intros _. simpl Zdigits2.
  rewrite digits2_pos_size. destruct p; simpl; lia.
Qed.

Lemma Zdigits2_pos z : 0 < z -> 0 < Zdigits2 z.
Proof.
  intros H. rewrite Zdigits2_log2 by assumption.
  pose proof (Z.log2_nonneg z). lia.
Qed.

Lemma Zdigits2_shift z s :
  0 < z -> 0 <= s -> Zdigits2 (z * 2 ^ s) = Zdigits2 z + s.
Proof.
  intros Hz Hs.
  assert (0 < 2 ^ s) by (apply Z.pow_pos_nonneg; lia).
  rewrite !Zdigits2_log2 by nia.
  rewrite Z.log2_mul_pow2 by lia. lia.
Qed.

Lemma Zdigits2_mul a b :
  0 < a -> 0 < b ->
  Zdigits2 a + Zdigits2 b - 1 <= Zdigits2 (a * b) <= Zdigits2 a + Zdigits2 b.
Proof.
  intros Ha Hb. rewrite !Zdigits2_log2 by nia.
  pose proof (Z.log2_mul_below a b Ha Hb).
  pose proof (Z.log2_mul_above a b). lia.
Qed.

Lemma Zdigits2_bound z n :
  0 < z -> 0 <= n -> z < 2 ^ n -> Zdigits2 z <= n.
Proof.
  intros Hz Hn H. rewrite Zdigits2_log2 by assumption.
  apply Z.log2_lt_pow2 in H; lia.
Qed.

Lemma fexp_small d : - 1021 <= d -> fexp prec emax d = d - prec.
Proof. unfold fexp, emin, prec, emax. lia. Qed.

Lemma shr_1_double z :
  0 < z ->
  shr_1 {| shr_m := 2 * z; shr_r := false; shr_s := false |} =
  {| shr_m := z; shr_r := false; shr_s := false |}.
Proof. destruct z; try lia. reflexivity. Qed.

Lemma round_exact k s :
  0 < k -> Zdigits2 k <= prec ->
  (s = prec - Zdigits2 k \/ s = prec - Zdigits2 k + 1) ->
  binary_round_aux prec emax false (k * 2 ^ s) (- s) loc_Exact =
  float_of_small k.
Proof.
  intros Hk Hd Hs.
  pose proof (Zdigits2_pos k Hk) as Hd0.
  assert (Hs0 : 0 <= s) by lia.
  assert (Hstep : forall t, 0 <= t -> t = prec - Zdigits2 k ->
            shr_fexp prec emax (k * 2 ^ t) (- t) loc_Exact =
            ({| shr_m := k * 2 ^ t; shr_r := false; shr_s := false |}, - t)).
  { intros t Ht Et. unfold shr_fexp.
    rewrite Zdigits2_shift by assumption.
    rewrite fexp_small by (unfold prec in *; lia).
    replace (Zdigits2 k + t + - t - prec - - t) with 0 by lia.
    reflexivity. }
  assert (Hfin : forall t, 0 <= t -> t = prec - Zdigits2 k ->
            binary_round_aux prec emax false (k * 2 ^ t) (- t) loc_Exact =
            float_of_small k).
  { intros t Ht Et. unfold binary_round_aux.
    rewrite (Hstep t Ht Et). cbn [shr_m loc_of_shr_record round_nearest_even shr_r shr_s].
    rewrite (Hstep t Ht Et). cbn [shr_m].
    assert (0 < k * 2 ^ t) by (apply Z.mul_pos_pos; [lia|apply Z.pow_pos_nonneg; lia]).
    destruct (k * 2 ^ t) as [|p|p] eqn:E; try lia.
    replace (- t <=? emax - prec) with true
      by (symmetry; apply Z.leb_le; unfold emax, prec in *; lia).
    unfold float_of_small. rewrite <- Et, E. simpl Z.to_pos. f_equal. lia. }
  destruct Hs as [Hs|Hs]; [apply Hfin; lia|].
  unfold binary_round_aux at 1.
  unfold shr_fexp at 1.
  rewrite Zdigits2_shift by assumption.
  rewrite fexp_small by (unfold prec in *; lia).
  replace (Zdigits2 k + s + - s - prec - - s) with 1 by lia.
  cbn [shr shr_record_of_loc iter_pos].
  replace (k * 2 ^ s) with (2 * (k * 2 ^ (s - 1))).
  2:{ replace s with (Z.succ (s - 1)) at 2 by lia. rewrite Z.pow_succ_r by lia. ring. }
  rewrite shr_1_double
    by (apply Z.mul_pos_pos; [lia|apply Z.pow_pos_nonneg; lia]).
  cbn [shr_m loc_of_shr_record round_nearest_even shr_r shr_s].
  replace (- s + 1) with (- (s - 1)) by lia.
  specialize (Hfin (s - 1) ltac:(lia) ltac:(lia)).
  unfold binary_round_aux in Hfin.
  rewrite (Hstep (s - 1)) in Hfin by lia.
  cbn [shr_m loc_of_shr_record round_nearest_even shr_r shr_s] in Hfin.
  exact Hfin.
Qed.

Lemma new_location_0 n : new_location n 0 = loc_Exact.
Proof.
  unfold new_location, new_location_even, new_location_odd.
  destruct (Z.even n); reflexivity.
Qed.

Lemma SFdiv_exact m1 e1 m2 e2 k s :
  0 < k -> Zdigits2 k <= prec ->
  Z.min (fexp prec emax (Zdigits2 (Zpos m1) + e1 - (Zdigits2 (Zpos m2) + e2)))
        (e1 - e2) = - s ->
  (s = prec - Zdigits2 k \/ s = prec - Zdigits2 k + 1) ->
  Zpos m1 * 2 ^ (e1 - e2 + s) = k * 2 ^ s * Zpos m2 ->
  SFdiv prec emax (S754_finite false m1 e1) (S754_finite false m2 e2) =
  float_of_small k.
Proof.
  intros Hk Hd He Hs Hq.
  unfold SFdiv, SFdiv_core_binary. rewrite He.
  replace (e1 - e2 - - s) with (e1 - e2 + s) by lia.
  assert (Hsh : 0 <= e1 - e2 + s) by lia.
  assert (Hm : match e1 - e2 + s with
               | Z0 => Zpos m1
               | Zpos _ => Z.shiftl (Zpos m1) (e1 - e2 + s)
               | Zneg _ => 0
               end = k * 2 ^ s * Zpos m2).
  { rewrite <- Hq. destruct (e1 - e2 + s) as [|p|p] eqn:E; try lia.
    rewrite Z.shiftl_mul_pow2 by lia. reflexivity. }
  rewrite Hm.
  pose proof (Z.div_mul (k * 2 ^ s) (Zpos m2) ltac:(lia)) as Hdiv.
  pose proof (Z.mod_mul (k * 2 ^ s) (Zpos m2) ltac:(lia)) as Hmod.
  unfold Z.div, Z.modulo in Hdiv, Hmod.
  destruct (Z.div_eucl (k * 2 ^ s * Zpos m2) (Zpos m2)) as [q r].
  subst q r.
  rewrite new_location_0. cbn [xorb].
  apply round_exact; assumption.
Qed.

Lemma float_of_small_value k :
  0 < k -> Zdigits2 k <= prec ->
  int_of_float (float_of_small k) = inr k /\ round_float (float_of_small k) = inr k.
Proof.
  intros Hk Hd. pose proof (Zdigits2_pos k Hk) as Hd0.
  unfold int_of_float, round_float, integral, float_of_small.
  set (t := prec - Zdigits2 k).
  assert (Ht : 0 <= t) by (unfold t; lia).
  assert (Hp : 0 < 2 ^ t) by (apply Z.pow_pos_nonneg; lia).
  rewrite Z2Pos.id by nia.
  replace (Zdigits2 k - prec) with (- t) by (unfold t; lia).
  rewrite Z.opp_involutive. cbn [cond_Zopp].
  destruct (Z.leb_spec 0 (- t)) as [H0|H0].
  - assert (t = 0) as -> by lia. cbn. split; f_equal; lia.
  - unfold div_half_even. rewrite Z.div_mul, Z.mod_mul by lia.
    replace (2 * 0 ?= 2 ^ t) with Lt by (symmetry; apply Z.compare_lt_iff; lia).
    split; reflexivity.
Qed.

Lemma float_of_int_small n :
  0 < n -> n < 2 ^ prec -> float_of_int n = inr (float_of_small n).
Proof.
  intros Hn Hb.
  pose proof (Zdigits2_pos n Hn) as Hd0.
  pose proof (Zdigits2_bound n prec Hn ltac:(unfold prec; lia) Hb) as Hd.
  unfold float_of_int, binary_normalize.
  destruct n as [|p|p]; try lia.
  unfold binary_round, shl_align.
  change (Zpos (digits2_pos p)) with (Zdigits2 (Zpos p)).
  rewrite Z.add_0_r, fexp_small by (unfold prec in *; lia).
  set (d := Zdigits2 (Zpos p)) in *.
  assert (E : binary_round_aux prec emax false
                (Zpos p * 2 ^ (prec - d)) (- (prec - d)) loc_Exact =
              float_of_small (Zpos p)) by (apply round_exact; fold d; lia).
  destruct (d - prec - 0) as [|q|q] eqn:Eq; try lia.
  - replace (prec - d) with 0 in E by lia.
    rewrite Z.pow_0_r, Z.mul_1_r in E. cbn [Z.opp] in E. rewrite E. reflexivity.
  - assert (Hsh : Zpos (Pos.iter xO p q) = Zpos p * 2 ^ (prec - d)).
    { replace (prec - d) with (Zpos q) by lia.
      change (Pos.iter xO p q) with (Zpower.shift_pos q p).
      rewrite Zpower.shift_pos_correct.
      change (Z.pow_pos 2 q) with (2 ^ Zpos q). ring. }
    rewrite Hsh. replace (d - prec) with (- (prec - d)) by lia.
    rewrite E. reflexivity.
Qed.

Lemma int_truediv_exact k b :
  0 < k -> 0 < b -> k * b < 2 ^ prec ->
  int_truediv (k * b) b = inr (float_of_small k).
Proof.
  intros Hk Hb Hlt.
  assert (Hkb : 0 < k * b) by nia.
  assert (Hklt : k < 2 ^ prec) by nia.
  pose proof (Zdigits2_bound k prec Hk ltac:(unfold prec; lia) Hklt) as Hdk.
  pose proof (Zdigits2_bound (k * b) prec Hkb ltac:(unfold prec; lia) Hlt) as Hdkb.
  pose proof (Zdigits2_mul k b Hk Hb) as Hmul.
  pose proof (Zdigits2_pos k Hk). pose proof (Zdigits2_pos b Hb).
  unfold int_truediv.
  replace (b =? 0) with false by (symmetry; apply Z.eqb_neq; lia).
  destruct (k * b) as [|pkb|pkb] eqn:Ekb; try lia.
  destruct b as [|pb|pb] eqn:Eb; try lia.
  cbn [SF_of_Z].
  rewrite (SFdiv_exact pkb 0 pb 0 k
             (prec + Zdigits2 (Zpos pb) - Zdigits2 (Zpos pkb))).
  - reflexivity.
  - assumption.
  - assumption.
  - rewrite fexp_small by (unfold prec in *; lia). unfold prec in *. lia.
  - lia.
  - rewrite <- Ekb. replace (0 - 0 + _) with (prec + Zdigits2 (Zpos pb) - Zdigits2 (k * Zpos pb)) by (rewrite Ekb; lia). ring.
Qed.

Lemma float_truediv_int_exact k n :
  0 < k -> 0 < n -> k * n < 2 ^ prec ->
  float_truediv_int (float_of_small (k * n)) n = inr (float_of_small k).
Proof.
  intros Hk Hn Hlt.
  assert (Hkn : 0 < k * n) by nia.
  assert (Hklt : k < 2 ^ prec) by nia.
  assert (Hnlt : n < 2 ^ prec) by nia.
  pose proof (Zdigits2_bound k prec Hk ltac:(unfold prec; lia) Hklt) as Hdk.
  pose proof (Zdigits2_bound n prec Hn ltac:(unfold prec; lia) Hnlt) as Hdn.
  pose proof (Zdigits2_bound (k * n) prec Hkn ltac:(unfold prec; lia) Hlt) as Hdkn.
  pose proof (Zdigits2_mul k n Hk Hn) as Hmul.
  pose proof (Zdigits2_pos k Hk). pose proof (Zdigits2_pos n Hn).
  pose proof (Zdigits2_pos (k * n) Hkn).
  unfold float_truediv_int. rewrite float_of_int_small by assumption.
  unfold float_of_small at 1. cbn [is_zero]. apply f_equal.
  unfold float_of_small at 1 2.
  set (d1 := Zdigits2 (k * n)) in *. set (d2 := Zdigits2 n) in *.
  assert (Hp1 : 0 < 2 ^ (prec - d1)) by (apply Z.pow_pos_nonneg; lia).
  assert (Hp2 : 0 < 2 ^ (prec - d2)) by (apply Z.pow_pos_nonneg; lia).
  apply (SFdiv_exact _ _ _ _ k (prec + d2 - d1)).
  - assumption.
  - assumption.
  - rewrite !Z2Pos.id by nia. rewrite !Zdigits2_shift by lia.
    fold d1 d2. rewrite fexp_small by (unfold prec in *; lia).
    unfold prec in *. lia.
  - lia.
  - rewrite !Z2Pos.id by nia.
    replace (d1 - prec - (d2 - prec) + (prec + d2 - d1)) with prec by lia.
    replace (k * n * 2 ^ (prec - d1) * 2 ^ prec)
      with (k * n * (2 ^ (prec - d1) * 2 ^ prec)) by ring.
    replace (k * 2 ^ (prec + d2 - d1) * (n * 2 ^ (prec - d2)))
      with (k * n * (2 ^ (prec + d2 - d1) * 2 ^ (prec - d2))) by ring.
    rewrite <- !Z.pow_add_r by (unfold prec in *; lia).
    do 2 f_equal. lia.
Qed.

Lemma float_quotient_exact k mbs nr :
  0 < k -> 0 < mbs -> 0 < nr -> k * (mbs * nr) < 2 ^ prec ->
  float_quotient (k * (mbs * nr)) mbs nr = inr (float_of_small k).
Proof.
  intros Hk Hm Hr Hlt. unfold float_quotient.
  replace (k * (mbs * nr)) with (k * nr * mbs) by ring.
  rewrite int_truediv_exact by nia.
  apply float_truediv_int_exact; nia.
Qed.

Lemma binary_round_aux_not_negative m e l :
  not_negative (binary_round_aux prec emax false m e l).
Proof.
  unfold binary_round_aux.
  destruct (shr_fexp prec emax m e l) as [mrs' e'].
  destruct (shr_fexp prec emax _ e' loc_Exact) as [mrs'' e''].
  destruct (shr_m mrs''); [exact I| |exact I].
  destruct (e'' <=? emax - prec); exact I.
Qed.

Lemma SFdiv_not_negative x y :
  not_negative x -> not_negative y -> not_negative (SFdiv prec emax x y).
Proof.
  destruct x as [[|]| [|] | |[|] mx ex], y as [[|]|[|]| |[|] my ey];
    cbn [not_negative SFdiv xorb]; try tauto.
  intros _ _.
  destruct (SFdiv_core_binary prec emax (Zpos mx) ex (Zpos my) ey) as [[mz ez] lz].
  apply binary_round_aux_not_negative.
Qed.

Lemma SF_of_Z_not_negative n : 0 <= n -> not_negative (SF_of_Z n).
Proof. destruct n; cbn; auto; lia. Qed.

Lemma not_infinite_inr x y : not_infinite x = inr y -> y = x.
Proof. destruct x; cbn; congruence. Qed.

Lemma float_quotient_not_negative gbs mbs nr q :
  0 <= gbs -> 0 <= mbs -> 0 <= nr ->
  float_quotient gbs mbs nr = inr q -> not_negative q.
Proof.
  intros Hg Hm Hr. unfold float_quotient, int_truediv, float_truediv_int, float_of_int.
  destruct (mbs =? 0); [discriminate|].
  destruct (not_infinite (SFdiv _ _ _ _)) as [e|q0] eqn:E0; [discriminate|].
  apply not_infinite_inr in E0.
  destruct (not_infinite (binary_normalize _ _ _ _ _)) as [e|y] eqn:Ey; [discriminate|].
  apply not_infinite_inr in Ey.
  destruct (is_zero y); [discriminate|].
  intros [= <-]. subst q0 y.
  apply SFdiv_not_negative.
  - apply SFdiv_not_negative; apply SF_of_Z_not_negative; assumption.
  - destruct nr as [|p|p]; try lia; [exact I|].
    unfold binary_normalize, binary_round.
    destruct (shl_align _ _ _) as [mz ez].
    apply binary_round_aux_not_negative.
Qed.

Lemma div_half_even_nonneg m d : 0 <= m -> 0 < d -> 0 <= div_half_even m d.
Proof.
  intros Hm Hd. unfold div_half_even.
  pose proof (Z.div_pos m d Hm Hd).
  destruct (2 * (m mod d) ?= d); [destruct (Z.even (m / d))| |]; lia.
Qed.

Lemma inr_eq {A B} (a b : B) : @inr A B a = inr b -> a = b.
Proof. congruence. Qed.

Lemma integral_nonneg cut x n :
  (forall m d, 0 <= m -> 0 < d -> 0 <= cut m d) ->
  not_negative x -> integral cut x = inr n -> 0 <= n.
Proof.
  intros Hcut Hx E. destruct x as [s|s| |[|] m e];
    cbn [integral cond_Zopp not_negative] in *;
    try discriminate; try contradiction; apply inr_eq in E; subst n; [lia|].
  destruct (Z.leb_spec 0 e).
  - apply Z.mul_nonneg_nonneg; [lia|apply Z.pow_nonneg; lia].
  - apply Hcut; [lia|apply Z.pow_pos_nonneg; lia].
Qed.

Lemma int_of_float_nonneg x n :
  not_negative x -> int_of_float x = inr n -> 0 <= n.
Proof.
  apply integral_nonneg. intros m d Hm Hd. apply Z.div_pos; assumption.
Qed.

Lemma round_float_nonneg x n :
  not_negative x -> round_float x = inr n -> 0 <= n.
Proof. apply integral_nonneg, div_half_even_nonneg. Qed.

(* ===================================================================== *)
(** * Properties of [BatchConfig] *)
(* ===================================================================== *)

Ltac run_post_init :=
  unfold new_BatchConfig, __post_init__, bind, get_self, assert_, lift,
    raise, ret, setattr_global_batch_size,
    setattr_gradient_accumulation_count,
    setattr_num_micro_batches_per_weight_update, logging_warning,
    logging_info, modify; cbn [self logged micro_batch_size num_replicas
    gradient_accumulation_count global_batch_size
    num_micro_batches_per_weight_update is_None negb orb andb as_int app].

Ltac positive_tests :=
  repeat match goal with
         | H : 0 < ?x |- context [0 <? ?x] =>
             rewrite (proj2 (Z.ltb_lt 0 x) H)
         end.

(** Construction from a gradient accumulation count. *)
Lemma new_from_count mbs nr gac :
  0 < mbs -> 0 < nr -> 0 < gac ->
  new_BatchConfig mbs nr (Some gac) None =
  (inr (resolved mbs nr gac (mbs * nr * gac)),
   info_records (resolved mbs nr gac (mbs * nr * gac))).
Proof.
  intros Hm Hr Hg. run_post_init. positive_tests. reflexivity.
Qed.

(** Construction from a global batch size, branch by branch. *)
Lemma new_from_global mbs nr gbs :
  0 < mbs -> 0 < nr -> 0 < gbs ->
  new_BatchConfig mbs nr None (Some gbs) =
  match float_quotient gbs mbs nr with
  | inl e => (inl e, [])
  | inr q =>
      if gbs mod (mbs * nr) =? 0 then
        match int_of_float q with
        | inl e => (inl e, [])
        | inr n => (inr (resolved mbs nr n gbs),
                    info_records (resolved mbs nr n gbs))
        end
      else
        match round_float q with
        | inl e => (inl e, [])
        | inr n =>
            (inr (resolved mbs nr n (mbs * nr * n)),
             WARNING (NotDivisible gbs mbs nr q (Some n) (Some (mbs * nr * n)))
               :: info_records (resolved mbs nr n (mbs * nr * n)))
        end
  end.
Proof.
  intros Hm Hr Hg. run_post_init. positive_tests.
  unfold float_quotient.
  destruct (int_truediv gbs mbs) as [e|q0]; [reflexivity|].
  destruct (float_truediv_int q0 nr) as [e|q]; [reflexivity|].
  unfold int_mod.
  assert (Hne : (mbs * nr =? 0) = false) by (apply Z.eqb_neq; nia).
  rewrite Hne.
  destruct (gbs mod (mbs * nr) =? 0).
  - destruct (int_of_float q) as [e|n]; reflexivity.
  - destruct (round_float q) as [e|n]; reflexivity.
Qed.

Ltac negative_tests :=
  repeat match goal with
         | H : ?x <= 0 |- context [0 <? ?x] =>
             rewrite (proj2 (Z.ltb_ge 0 x) H)
         end.

(** Every way a construction is turned down, in the order the checks are
    made. *)
Lemma new_rejected mbs nr gac gbs :
  mbs <= 0 \/ nr <= 0 \/
  (gac <> None /\ gbs <> None) \/ (gac = None /\ gbs = None) \/
  (exists g, gac = Some g /\ g <= 0) \/ (exists g, gbs = Some g /\ g <= 0) ->
  exists e, new_BatchConfig mbs nr gac gbs = (inl e, []) /\
            configuration_error e.
Proof.
  unfold configuration_error. intros H. run_post_init.
  destruct (Z.ltb_spec 0 mbs) as [Hm|Hm]; [|eauto].
  destruct (Z.ltb_spec 0 nr) as [Hr|Hr]; [|eauto].
  destruct gac as [g|], gbs as [b|]; cbn; [eauto| | |eauto].
  - destruct (Z.ltb_spec 0 g) as [Hg|Hg]; [|eauto].
    exfalso. destruct H as [H|[H|[[_ H]|[[H _]|[[g' [E H]]|[b' [E _]]]]]]];
      try lia; try congruence.
    injection E as <-. lia.
  - destruct (Z.ltb_spec 0 b) as [Hb|Hb]; [|eauto].
    exfalso. destruct H as [H|[H|[[H _]|[[_ H]|[[g' [E _]]|[b' [E H]]]]]]];
      try lia; try congruence.
    injection E as <-. lia.
Qed.

(** What a completed construction went through. *)
Lemma new_completed mbs nr gac0 gbs0 c log :
  new_BatchConfig mbs nr gac0 gbs0 = (inr c, log) ->
  0 < mbs /\ 0 < nr /\
  ((exists gac, gac0 = Some gac /\ gbs0 = None /\ 0 < gac /\
      c = resolved mbs nr gac (mbs * nr * gac) /\ log = info_records c) \/
   (exists gbs q n, gac0 = None /\ gbs0 = Some gbs /\ 0 < gbs /\
      float_quotient gbs mbs nr = inr q /\
      ((gbs mod (mbs * nr) = 0 /\ int_of_float q = inr n /\
        c = resolved mbs nr n gbs /\ log = info_records c) \/
       (gbs mod (mbs * nr) <> 0 /\ round_float q = inr n /\
        c = resolved mbs nr n (mbs * nr * n) /\
        log = WARNING (NotDivisible gbs mbs nr q (Some n) (Some (mbs * nr * n)))
                :: info_records c)))).
Proof.
  intros H.
  assert (Hm : 0 < mbs).
  { destruct (Z.ltb_spec 0 mbs) as [Hm|Hm]; [assumption|].
    destruct (new_rejected mbs nr gac0 gbs0) as [e [E _]]; [auto|congruence]. }
  assert (Hr : 0 < nr).
  { destruct (Z.ltb_spec 0 nr) as [Hr|Hr]; [assumption|].
    destruct (new_rejected mbs nr gac0 gbs0) as [e [E _]]; [auto|congruence]. }
  split; [assumption|]. split; [assumption|].
  destruct gac0 as [gac|], gbs0 as [gbs|].
  - destruct (new_rejected mbs nr (Some gac) (Some gbs)) as [e [E _]];
      [right; right; left; split; discriminate|congruence].
  - left. exists gac.
    assert (Hg : 0 < gac).
    { destruct (Z.ltb_spec 0 gac) as [Hg|Hg]; [assumption|].
      destruct (new_rejected mbs nr (Some gac) None) as [e [E _]];
        [do 4 right; left; eauto|congruence]. }
    rewrite new_from_count in H by assumption.
    injection H as <- <-. auto.
  - right.
    assert (Hg : 0 < gbs).
    { destruct (Z.ltb_spec 0 gbs) as [Hg|Hg]; [assumption|].
      destruct (new_rejected mbs nr None (Some gbs)) as [e [E _]];
        [do 5 right; eauto|congruence]. }
    rewrite new_from_global in H by assumption.
    destruct (float_quotient gbs mbs nr) as [e|q] eqn:Eq; [discriminate|].
    destruct (Z.eqb_spec (gbs mod (mbs * nr)) 0) as [Hd|Hd].
    + destruct (int_of_float q) as [e|n] eqn:En; [discriminate|].
      injection H as <- <-. exists gbs, q, n.
      do 4 (split; [solve [auto]|]). left. auto.
    + destruct (round_float q) as [e|n] eqn:En; [discriminate|].
      injection H as <- <-. exists gbs, q, n.
      do 4 (split; [solve [auto]|]). right. auto.
  - destruct (new_rejected mbs nr None None) as [e [E _]];
      [do 3 right; left; auto|congruence].
Qed.

(** A completed construction leaves both counts resolved, the accumulation
    count not negative and the derived field equal to
    [gradient_accumulation_count * num_replicas]. *)
Lemma completed_is_resolved mbs nr gac0 gbs0 c log :
  new_BatchConfig mbs nr gac0 gbs0 = (inr c, log) ->
  0 < mbs /\ 0 < nr /\
  exists gac gbs, c = resolved mbs nr gac gbs /\ 0 <= gac.
Proof.
  intros H. apply new_completed in H.
  destruct H as [Hm [Hr [[gac [_ [_ [Hg [-> _]]]]]|
                         [gbs [q [n [_ [_ [Hg [Hq H]]]]]]]]]].
  - split; [assumption|]. split; [assumption|].
    exists gac, (mbs * nr * gac). split; [reflexivity|lia].
  - split; [assumption|]. split; [assumption|].
    apply float_quotient_not_negative in Hq; try lia.
    destruct H as [[_ [Hn [-> _]]]|[_ [Hn [-> _]]]].
    + exists n, gbs. split; [reflexivity|].
      apply (int_of_float_nonneg q); assumption.
    + exists n, (mbs * nr * n). split; [reflexivity|].
      apply (round_float_nonneg q); assumption.
Qed.

(** A global batch size below [2 ^ 53] that divides evenly resolves to the
    exact quotient, unchanged and without a warning. *)
Lemma new_from_global_divisible mbs nr gbs :
  0 < mbs -> 0 < nr -> 0 < gbs -> gbs < 2 ^ 53 ->
  gbs mod (mbs * nr) = 0 ->
  new_BatchConfig mbs nr None (Some gbs) =
  (inr (resolved mbs nr (gbs / (mbs * nr)) gbs),
   info_records (resolved mbs nr (gbs / (mbs * nr)) gbs)).
Proof.
  intros Hm Hr Hg Hlt Hd.
  assert (Hb : 0 < mbs * nr) by nia.
  pose proof (Z.div_mod gbs (mbs * nr) ltac:(lia)) as E.
  rewrite Hd, Z.add_0_r in E.
  set (k := gbs / (mbs * nr)) in *.
  assert (Hk : 0 < k) by nia.
  rewrite new_from_global by assumption.
  rewrite Hd, Z.eqb_refl.
  replace (float_quotient gbs mbs nr) with (float_quotient (k * (mbs * nr)) mbs nr)
    by (f_equal; lia).
  rewrite float_quotient_exact by (try assumption; change prec with 53; lia).
  assert (Hdk : Zdigits2 k <= prec).
  { apply Zdigits2_bound; [assumption|unfold prec; lia|change prec with 53; nia]. }
  destruct (float_of_small_value k Hk Hdk) as [-> _]. reflexivity.
Qed.

(** A global batch size that does not divide evenly is replaced: whenever
    the construction completes, the count is the float quotient rounded
    half to even, the global batch size is recomputed from it and exactly
    one warning is logged. *)
Lemma new_from_global_rounded mbs nr gbs c log :
  gbs mod (mbs * nr) <> 0 ->
  new_BatchConfig mbs nr None (Some gbs) = (inr c, log) ->
  exists q n,
    float_quotient gbs mbs nr = inr q /\ round_float q = inr n /\
    c = resolved mbs nr n (mbs * nr * n) /\
    warnings log =
      [WARNING (NotDivisible gbs mbs nr q (Some n) (Some (mbs * nr * n)))].
Proof.
  intros Hd H. apply new_completed in H.
  destruct H as [_ [_ [[gac [E _]]|[gbs' [q [n [_ [E [_ [Hq H]]]]]]]]]];
    [discriminate|].
  injection E as <-.
  destruct H as [[Hd' _]|[_ [Hn [-> ->]]]]; [contradiction|].
  exists q, n. auto.
Qed.

(** The invariant of the data model holds after every construction from an
    accumulation count, and after every construction from a global batch
    size below [2 ^ 53]. *)
Lemma invariant_below_2_53 mbs nr gac0 gbs0 c log :
  new_BatchConfig mbs nr gac0 gbs0 = (inr c, log) ->
  (forall gbs, gbs0 = Some gbs -> gbs < 2 ^ 53) ->
  invariant c.
Proof.
  intros H Hlt. pose proof (new_completed _ _ _ _ _ _ H) as Hc.
  destruct Hc as [Hm [Hr [[gac [_ [_ [Hg [-> _]]]]]|
                          [gbs [q [n [-> [-> [Hg [Hq Hc]]]]]]]]]].
  - exists gac, (mbs * nr * gac). auto.
  - destruct Hc as [[Hd _]|[_ [_ [-> _]]]].
    + rewrite new_from_global_divisible in H by auto.
      injection H as <- _.
      exists (gbs / (mbs * nr)), gbs. cbn. split; [reflexivity|].
      split; [reflexivity|].
      pose proof (Z.div_mod gbs (mbs * nr) ltac:(nia)). lia.
    + exists n, (mbs * nr * n). auto.
Qed.

(** [%] and [//] as the methods use them. *)
Lemma discarded_value c gbs ds ni :
  global_batch_size c = Some gbs -> gbs / ni <> 0 ->
  get_num_discarded_samples c ds ni = inr (ds mod (gbs / ni)).
Proof.
  intros E Hne.
  assert (Hni : ni <> 0) by (intros ->; apply Hne, Z.div_0_r).
  unfold get_num_discarded_samples, run, bind, lift, int_floordiv, int_mod.
  rewrite E. cbn [as_int].
  rewrite (proj2 (Z.eqb_neq ni 0) Hni). cbn [fst].
  rewrite (proj2 (Z.eqb_neq (gbs / ni) 0) Hne). reflexivity.
Qed.

Lemma padding_value c gbs d ni :
  global_batch_size c = Some gbs -> gbs / ni <> 0 ->
  get_num_padding_samples c d ni =
  inr (if d =? 0 then 0 else gbs / ni - d).
Proof.
  intros E Hne.
  assert (Hni : ni <> 0) by (intros ->; apply Hne, Z.div_0_r).
  unfold get_num_padding_samples, run, bind, lift, ret, int_floordiv.
  destruct (d =? 0); [reflexivity|].
  rewrite E. cbn [as_int].
  rewrite (proj2 (Z.eqb_neq ni 0) Hni). reflexivity.
Qed.

Lemma micro_batches_value c nmb ds :
  num_micro_batches_per_weight_update c = Some nmb ->
  micro_batch_size c * nmb <> 0 ->
  get_num_micro_batches_per_epoch c ds =
  inr (ds / (micro_batch_size c * nmb) * nmb).
Proof.
  intros E Hne.
  unfold get_num_micro_batches_per_epoch, run, bind, lift, ret, int_floordiv.
  rewrite E. cbn [as_int].
  rewrite (proj2 (Z.eqb_neq _ 0) Hne). reflexivity.
Qed.

(** ** The claims about [BatchConfig] *)

(** C1.  The claim: every construction that completes leaves
    [global_batch_size == micro_batch_size * num_replicas *
    gradient_accumulation_count].  The code loses it where a global batch
    size that divides evenly no longer fits a float: [2 ^ 53 + 1] with one
    replica and micro batches of one completes, keeps the global batch size
    and resolves the count to [2 ^ 53].  ([invariant_below_2_53] is the
    part of the claim the code keeps.) *)
Theorem invariant_lost_beyond_2_53 :
  exists c log,
    new_BatchConfig 1 1 None (Some (2 ^ 53 + 1)) = (inr c, log) /\
    gradient_accumulation_count c = Some (2 ^ 53) /\
    global_batch_size c = Some (2 ^ 53 + 1) /\
    ~ invariant c.
Proof.
  eexists _, _. split; [vm_compute; reflexivity|].
  split; [reflexivity|]. split; [reflexivity|].
  intros [gac [gbs [Ea [Eb E]]]]. cbn in Ea, Eb, E.
  injection Ea as <-. injection Eb as <-. discriminate E.
Qed.

(** The two worked examples of the specification: [32] over [4 * 2]
    resolves to a count of [4] without a warning, [33] resolves to a count
    of [4] (from [4.125]), is recomputed to [32] and logs a warning. *)
Example global_32 :
  new_BatchConfig 4 2 None (Some 32) =
  (inr (resolved 4 2 4 32), info_records (resolved 4 2 4 32)).
Proof. vm_compute. reflexivity. Qed.

Example global_33 :
  new_BatchConfig 4 2 None (Some 33) =
  (inr (resolved 4 2 4 32),
   WARNING (NotDivisible 33 4 2 (S754_finite false (33 * 2 ^ 47) (-50))
              (Some 4) (Some 32))
     :: info_records (resolved 4 2 4 32)).
Proof. vm_compute. reflexivity. Qed.

(** C2.  The claim: a global batch size that divides evenly resolves to the
    exact quotient and stays, any other is rounded to the nearest count
    with a warning and recomputed.  The code computes the quotient in
    floats, so the exact quotient is lost from [2 ^ 53] on: at [2 ^ 53 + 1]
    over [1 * 1] the remainder is [0], no warning is logged, and the count
    is [2 ^ 53].  ([new_from_global_divisible], [new_from_global_rounded],
    [global_32] and [global_33] are the parts of the claim the code
    keeps.) *)
Theorem exact_quotient_lost_beyond_2_53 :
  (2 ^ 53 + 1) mod (1 * 1) = 0 /\
  exists c log,
    new_BatchConfig 1 1 None (Some (2 ^ 53 + 1)) = (inr c, log) /\
    warnings log = [] /\
    global_batch_size c = Some (2 ^ 53 + 1) /\
    gradient_accumulation_count c = Some (2 ^ 53) /\
    gradient_accumulation_count c <> Some ((2 ^ 53 + 1) / (1 * 1)).
Proof.
  split; [reflexivity|].
  eexists _, _. split; [vm_compute; reflexivity|].
  repeat split; try reflexivity. discriminate.
Qed.

(** C3.  From positive [micro_batch_size], [num_replicas] and
    [gradient_accumulation_count] the construction completes with
    [global_batch_size] their exact integer product, the count as given and
    no warning. *)
Theorem global_batch_size_from_count mbs nr gac :
  0 < mbs -> 0 < nr -> 0 < gac ->
  exists c log,
    new_BatchConfig mbs nr (Some gac) None = (inr c, log) /\
    micro_batch_size c = mbs /\ num_replicas c = nr /\
    gradient_accumulation_count c = Some gac /\
    global_batch_size c = Some (mbs * nr * gac) /\
    warnings log = [].
Proof.
  intros Hm Hr Hg. eexists _, _.
  split; [apply new_from_count; assumption|]. repeat split.
Qed.

Lemma global_batch_size_from_count_witness :
  exists c log,
    new_BatchConfig 3 5 (Some 7) None = (inr c, log) /\
    micro_batch_size c = 3 /\ num_replicas c = 5 /\
    gradient_accumulation_count c = Some 7 /\
    global_batch_size c = Some (3 * 5 * 7) /\
    warnings log = [].
Proof. apply (global_batch_size_from_count 3 5 7); reflexivity. Defined.

(** C4.  Supplying both counts, supplying neither, or supplying a value
    that is not positive makes the construction raise a configuration
    error; no object results and nothing is logged. *)
Theorem construction_rejected mbs nr gac gbs :
  (gac <> None /\ gbs <> None) \/
  (gac = None /\ gbs = None) \/
  mbs <= 0 \/ nr <= 0 \/
  (exists g, gac = Some g /\ g <= 0) \/
  (exists g, gbs = Some g /\ g <= 0) ->
  exists e,
    new_BatchConfig mbs nr gac gbs = (inl e, []) /\ configuration_error e.
Proof.
  intros H. apply new_rejected. tauto.
Qed.

Lemma construction_rejected_witness :
  exists e,
    new_BatchConfig 4 2 (Some 4) (Some 32) = (inl e, []) /\
    configuration_error e.
Proof.
  apply (construction_rejected 4 2 (Some 4) (Some 32)).
  left. split; discriminate.
Defined.

(** Which error each rejection is. *)
Example rejected_both :
  new_BatchConfig 4 2 (Some 4) (Some 32) = (inl (ValueError both_msg), []).
Proof. reflexivity. Qed.

Example rejected_neither :
  new_BatchConfig 4 2 None None = (inl (ValueError neither_msg), []).
Proof. reflexivity. Qed.

Example rejected_non_positive :
  new_BatchConfig 0 2 (Some 4) None = (inl AssertionError, []) /\
  new_BatchConfig 4 (-1) (Some 4) None = (inl AssertionError, []) /\
  new_BatchConfig 4 2 (Some 0) None = (inl AssertionError, []) /\
  new_BatchConfig 4 2 None (Some (-8)) = (inl AssertionError, []).
Proof. repeat split. Qed.

(** C5.  On a constructed object [get_num_discarded_samples(dataset_size,
    num_instances)] is [dataset_size % (global_batch_size //
    num_instances)] wherever that divisor is not zero (which, [x / 0]
    being [0] in [Z], also excludes [num_instances = 0]). *)
Theorem discarded_samples_is_remainder mbs nr gac0 gbs0 c log :
  new_BatchConfig mbs nr gac0 gbs0 = (inr c, log) ->
  exists gbs,
    global_batch_size c = Some gbs /\
    forall dataset_size num_instances,
      gbs / num_instances <> 0 ->
      get_num_discarded_samples c dataset_size num_instances =
      inr (dataset_size mod (gbs / num_instances)).
Proof.
  intros H. apply completed_is_resolved in H.
  destruct H as [_ [_ [gac [gbs [-> _]]]]].
  exists gbs. split; [reflexivity|].
  intros ds ni Hne. apply discarded_value; [reflexivity|assumption].
Qed.

Lemma discarded_samples_is_remainder_witness :
  exists gbs,
    global_batch_size (resolved 4 2 4 32) = Some gbs /\
    forall dataset_size num_instances,
      gbs / num_instances <> 0 ->
      get_num_discarded_samples (resolved 4 2 4 32) dataset_size num_instances =
      inr (dataset_size mod (gbs / num_instances)).
Proof.
  apply (discarded_samples_is_remainder 4 2 None (Some 32)
           (resolved 4 2 4 32) (info_records (resolved 4 2 4 32))).
  vm_compute. reflexivity.
Defined.




Example micro_batches_of_100 :
  get_num_micro_batches_per_epoch (resolved 4 2 4 32) 100 = inr 24.
Proof. reflexivity. Qed.

(** C9.  On a constructed object, for a dataset size that is not negative
    and an instance batch size [global_batch_size // num_instances] that is
    positive: the discarded count [d] lies in [[0, instance_batch_size)],
    the padding [p] computed from it brings [d + p] to [0] when [d] is [0]
    and to the instance batch size otherwise, and [dataset_size + p] is a
    multiple of the instance batch size. *)
Theorem discarded_and_padding mbs nr gac0 gbs0 c log dataset_size num_instances :
  new_BatchConfig mbs nr gac0 gbs0 = (inr c, log) ->
  0 <= dataset_size ->
  (forall gbs, global_batch_size c = Some gbs -> 0 < gbs / num_instances) ->
  exists gbs d p,
    global_batch_size c = Some gbs /\
    get_num_discarded_samples c dataset_size num_instances = inr d /\
    get_num_padding_samples c d num_instances = inr p /\
    0 <= d < gbs / num_instances /\
    (d = 0 -> d + p = 0) /\
    (d <> 0 -> d + p = gbs / num_instances) /\
    (dataset_size + p) mod (gbs / num_instances) = 0.
Proof.
  intros H Hds Hpos. apply completed_is_resolved in H.
  destruct H as [_ [_ [gac [gbs [-> _]]]]].
  specialize (Hpos gbs eq_refl).
  set (b := gbs / num_instances) in *.
  exists gbs, (dataset_size mod b),
    (if dataset_size mod b =? 0 then 0 else b - dataset_size mod b).
  pose proof (Z.mod_pos_bound dataset_size b Hpos) as B.
  split; [reflexivity|].
  split; [apply discarded_value; [reflexivity|fold b; lia]|].
  split; [apply padding_value; [reflexivity|fold b; lia]|].
  split; [assumption|].
  destruct (Z.eqb_spec (dataset_size mod b) 0) as [E|E].
  - repeat split; try lia. rewrite Z.add_0_r. assumption.
  - repeat split; try lia.
    pose proof (Z.div_mod dataset_size b ltac:(lia)) as D.
    replace (dataset_size + (b - dataset_size mod b))
      with ((dataset_size / b + 1) * b) by lia.
    apply Z.mod_mul. lia.
Qed.

Lemma discarded_and_padding_witness :
  exists gbs d p,
    global_batch_size (resolved 4 2 4 32) = Some gbs /\
    get_num_discarded_samples (resolved 4 2 4 32) 100 2 = inr d /\
    get_num_padding_samples (resolved 4 2 4 32) d 2 = inr p /\
    0 <= d < gbs / 2 /\
    (d = 0 -> d + p = 0) /\
    (d <> 0 -> d + p = gbs / 2) /\
    (100 + p) mod (gbs / 2) = 0.
Proof.
  apply (discarded_and_padding 4 2 None (Some 32)
           (resolved 4 2 4 32) (info_records (resolved 4 2 4 32)) 100 2).
  - vm_compute. reflexivity.
  - lia.
  - intros gbs E. injection E as <-. reflexivity.
Defined.

Example discarded_and_padding_of_100 :
  get_num_discarded_samples (resolved 4 2 4 32) 100 2 = inr 4 /\
  get_num_padding_samples (resolved 4 2 4 32) 4 2 = inr 12.
Proof. split; reflexivity. Qed.

(** C10.  Positive inputs on the global-batch-size path need not resolve
    to positive fields: [micro_batch_size = 4], [num_replicas = 2] and
    [global_batch_size = 3] complete, the quotient [0.375] rounds to a
    count of [0] and the global batch size is recomputed to [0]. *)
Theorem rounded_to_zero :
  0 < 4 /\ 0 < 2 /\ 0 < 3 /\
  float_quotient 3 4 2 = inr (S754_finite false (3 * 2 ^ 51) (-54)) /\
  new_BatchConfig 4 2 None (Some 3) =
  (inr (resolved 4 2 0 0),
   WARNING (NotDivisible 3 4 2 (S754_finite false (3 * 2 ^ 51) (-54))
              (Some 0) (Some 0))
     :: info_records (resolved 4 2 0 0)) /\
  gradient_accumulation_count (resolved 4 2 0 0) = Some 0 /\
  global_batch_size (resolved 4 2 0 0) = Some 0.
Proof. repeat split; vm_compute; reflexivity. Qed.

(* ===================================================================== *)
(** * Properties of the driver *)
(* ===================================================================== *)

(** ** The matcher against the meaning of a pattern *)

Section MatcherFacts.
Context {R : Type}.
Implicit Types (k : list ascii -> list ascii -> groups -> option R).

Lemma match_star_sound p s : forall seen g k res,
  match_star p seen s g k = Some res ->
  exists w rest,
    s = w ++ rest /\ forallb p w = true /\
    k (rev w ++ seen) rest g = Some res.
Proof.
  induction s as [|c s IH]; intros seen g k res H; cbn in H.
  - exists [], []. auto.
  - destruct (p c) eqn:Hc.
    + destruct (match_star p (c :: seen) s g k) as [r|] eqn:E.
      * injection H as <-. apply IH in E.
        destruct E as [w [rest [-> [Hw Hk]]]].
        exists (c :: w), rest. cbn. rewrite Hc, Hw.
        rewrite <- app_assoc. auto.
      * exists [], (c :: s). auto.
    + exists [], (c :: s). auto.
Qed.

Lemma match_star_complete p w : forall rest seen g k,
  forallb p w = true ->
  k (rev w ++ seen) rest g <> None ->
  match_star p seen (w ++ rest) g k <> None.
Proof.
  induction w as [|c w IH]; intros rest seen g k Hw Hk.
  - cbn in *. destruct rest as [|c rest]; cbn; [assumption|].
    destruct (p c); [|assumption].
    destruct (match_star p (c :: seen) rest g k); [discriminate|assumption].
  - cbn in Hw. apply andb_prop in Hw. destruct Hw as [Hc Hw].
    cbn. rewrite Hc.
    specialize (IH rest (c :: seen) g k Hw).
    cbn in Hk. rewrite <- app_assoc in Hk. specialize (IH Hk).
    destruct (match_star p (c :: seen) (w ++ rest) g k); [discriminate|contradiction].
Qed.

Lemma captured_text (w seen : list ascii) :
  rev (firstn (List.length (rev w ++ seen) - List.length seen) (rev w ++ seen)) = w.
Proof.
  rewrite length_app, Nat.add_sub.
  rewrite firstn_app, Nat.sub_diag, firstn_all. cbn.
  rewrite app_nil_r. apply rev_involutive.
Qed.

Lemma match_regex_sound r : forall seen s g k res,
  match_regex r seen s g k = Some res ->
  exists w rest g',
    s = w ++ rest /\ matches r w g g' /\
    k (rev w ++ seen) rest g' = Some res.
Proof.
  induction r as [p|p|r1 IH1 r2 IH2|n r IH]; intros seen s g k res H; cbn in H.
  - destruct s as [|c s]; [discriminate|].
    destruct (p c) eqn:Hc; [|discriminate].
    exists [c], s, g. split; [reflexivity|]. split; [constructor; assumption|assumption].
  - apply match_star_sound in H. destruct H as [w [rest [-> [Hw Hk]]]].
    exists w, rest, g. split; [reflexivity|]. split; [constructor; assumption|assumption].
  - apply IH1 in H. destruct H as [w1 [rest1 [g1 [-> [H1 H]]]]].
    apply IH2 in H. destruct H as [w2 [rest2 [g2 [-> [H2 H]]]]].
    exists (w1 ++ w2), rest2, g2. rewrite <- app_assoc. split; [reflexivity|].
    split; [econstructor; eassumption|].
    rewrite rev_app_distr, <- app_assoc. assumption.
  - apply IH in H. destruct H as [w [rest [g' [-> [Hr H]]]]].
    rewrite captured_text in H.
    exists w, rest, ((n, w) :: g'). split; [reflexivity|].
    split; [constructor; assumption|assumption].
Qed.

Lemma match_regex_complete r : forall w g g',
  matches r w g g' ->
  forall seen rest k,
    k (rev w ++ seen) rest g' <> None ->
    match_regex r seen (w ++ rest) g k <> None.
Proof.
  intros w g g' H.
  induction H as [p c g Hc|p w g Hw|r1 r2 w1 w2 g g' g'' H1 IH1 H2 IH2|n r w g g' H IH];
    intros seen rest k Hk; cbn.
  - rewrite Hc. assumption.
  - apply match_star_complete; assumption.
  - rewrite <- app_assoc. apply IH1. apply IH2.
    rewrite rev_app_distr, <- app_assoc in Hk. assumption.
  - apply IH. rewrite captured_text. assumption.
Qed.
End MatcherFacts.

Ltac invert_matches :=
  repeat match goal with
         | H : matches (Seq _ _) _ _ _ |- _ => inversion H; subst; clear H
         | H : matches (Group _ _) _ _ _ |- _ => inversion H; subst; clear H
         | H : matches (Atom _) _ _ _ |- _ => inversion H; subst; clear H
         | H : matches (Star _) _ _ _ |- _ => inversion H; subst; clear H
         | H : matches (Chr _) _ _ _ |- _ => inversion H; subst; clear H
         | H : Ascii.eqb _ _ = true |- _ => apply Ascii.eqb_eq in H; subst
         end.

Lemma matches_filename_pattern w g :
  matches filename_pattern w [] g ->
  exists pre digits c,
    w = pre ++ list_ascii_of_string "ckpt-" ++ digits
            ++ c :: list_ascii_of_string "index" /\
    g = [(1%nat, pre ++ list_ascii_of_string "ckpt-" ++ digits); (2%nat, digits)] /\
    forallb (fun c => negb (Ascii.eqb c newline)) pre = true /\
    digits <> [] /\ forallb is_digit digits = true /\
    Ascii.eqb c newline = false.
Proof.
  intros H. cbv [filename_pattern Plus Dot Lit list_ascii_of_string] in H.
  invert_matches.
  match goal with
  | Hp : forallb _ ?pre = true, Hd : is_digit ?d = true,
    Hds : forallb is_digit ?ds = true, Hc : negb (Ascii.eqb ?c newline) = true |- _ =>
      exists pre, (d :: ds), c
  end.
  cbn -[is_digit]. repeat rewrite <- app_assoc. cbn -[is_digit].
  split; [reflexivity|]. split; [reflexivity|].
  split; [assumption|]. split; [discriminate|].
  split; [apply andb_true_intro; auto|].
  apply negb_true_iff; assumption.
Qed.

Lemma matches_Lit s g : s <> [] -> matches (Lit s) s g g.
Proof.
  induction s as [|a [|b s] IH]; intros Hne; [contradiction| |].
  - constructor. apply Ascii.eqb_refl.
  - change (a :: b :: s) with ([a] ++ b :: s).
    apply matches_Seq with (g' := g).
    + constructor. apply Ascii.eqb_refl.
    + apply IH. discriminate.
Qed.

Lemma filename_pattern_matches pre digits c :
  forallb (fun c => negb (Ascii.eqb c newline)) pre = true ->
  digits <> [] -> forallb is_digit digits = true ->
  Ascii.eqb c newline = false ->
  matches filename_pattern
    (pre ++ list_ascii_of_string "ckpt-" ++ digits
         ++ c :: list_ascii_of_string "index") []
    [(1%nat, pre ++ list_ascii_of_string "ckpt-" ++ digits); (2%nat, digits)].
Proof.
  intros Hpre Hne Hd Hc.
  destruct digits as [|d ds]; [contradiction|].
  cbn [forallb] in Hd. apply andb_prop in Hd. destruct Hd as [Hd Hds].
  set (ckpt := list_ascii_of_string "ckpt-").
  set (index := list_ascii_of_string "index").
  set (stem := pre ++ ckpt ++ d :: ds).
  set (G := [(1%nat, stem); (2%nat, d :: ds)]).
  replace (pre ++ ckpt ++ (d :: ds) ++ c :: index)
    with (stem ++ [c] ++ index)
    by (unfold stem; repeat rewrite <- app_assoc; reflexivity).
  unfold filename_pattern. fold ckpt index.
  apply (matches_Seq _ _ stem ([c] ++ index) [] G G).
  - apply matches_Group.
    apply (matches_Seq _ _ pre (ckpt ++ d :: ds) [] [] [(2%nat, d :: ds)]).
    + constructor. assumption.
    + apply (matches_Seq _ _ ckpt (d :: ds) [] [] [(2%nat, d :: ds)]).
      * apply matches_Lit. discriminate.
      * apply matches_Group.
        apply (matches_Seq _ _ [d] ds [] [] []); constructor; assumption.
  - apply (matches_Seq _ _ [c] index G G G).
    + constructor. rewrite Hc. reflexivity.
    + apply matches_Lit. discriminate.
Qed.

(** [re.match] with the checkpoint pattern accepts exactly the names of the
    shape [checkpoint_index]. *)
Lemma re_match_sound name g :
  re_match filename_pattern name = Some g ->
  exists stem digits,
    checkpoint_index (list_ascii_of_string name) stem digits /\
    g = [(1%nat, stem); (2%nat, digits)].
Proof.
  unfold re_match. intros H. apply match_regex_sound in H.
  destruct H as [w [rest [g' [E [H Hg]]]]]. injection Hg as <-.
  apply matches_filename_pattern in H.
  destruct H as [pre [digits [c [-> [-> [Hpre [Hne [Hd Hc]]]]]]]].
  exists (pre ++ list_ascii_of_string "ckpt-" ++ digits), digits.
  split; [|reflexivity].
  exists pre, c, rest. rewrite E. repeat rewrite <- app_assoc.
  repeat split; auto.
Qed.

Lemma re_match_complete name stem digits :
  checkpoint_index (list_ascii_of_string name) stem digits ->
  re_match filename_pattern name <> None.
Proof.
  intros [pre [c [rest [E [_ [Hpre [Hne [Hd Hc]]]]]]]].
  unfold re_match. rewrite E.
  replace (pre ++ list_ascii_of_string "ckpt-" ++ digits
               ++ c :: list_ascii_of_string "index" ++ rest)
    with ((pre ++ list_ascii_of_string "ckpt-" ++ digits
               ++ c :: list_ascii_of_string "index") ++ rest)
    by (repeat rewrite <- app_assoc; reflexivity).
  eapply match_regex_complete.
  - apply filename_pattern_matches; eassumption.
  - discriminate.
Qed.

(** ** Lists *)

Lemma not_None_In {A} (x : A) l : In x (not_None l) <-> In (Some x) l.
Proof.
  induction l as [|[y|] l IH]; cbn; [tauto| |].
  - rewrite IH. split; intros [H|H]; auto; left; congruence.
  - rewrite IH. split; [auto|]. intros [H|H]; [discriminate|assumption].
Qed.

Lemma map_raising_inr {A B} (f : A -> exn + B) l :
  (forall x, In x l -> exists y, f x = inr y) ->
  exists ys, map_raising f l = inr ys /\
             forall y, In y ys <-> exists x, In x l /\ f x = inr y.
Proof.
  induction l as [|x l IH]; intros H; cbn.
  - exists []. split; [reflexivity|]. intros y. split; [contradiction|].
    intros [x [[] _]].
  - destruct (H x (or_introl eq_refl)) as [y Ey]. rewrite Ey.
    destruct IH as [ys [-> Hys]]; [intros z Hz; apply H; right; assumption|].
    exists (y :: ys). split; [reflexivity|]. intros z. cbn. rewrite Hys.
    split.
    + intros [<-|[x' [Hx' E]]]; [exists x; auto|exists x'; auto].
    + intros [x' [[<-|Hx'] E]]; [left; congruence|right; exists x'; auto].
Qed.

Lemma insert_by_key_In {A} (x y : Z * A) l :
  In y (insert_by_key x l) <-> y = x \/ In y l.
Proof.
  induction l as [|z l IH]; cbn.
  - split; intros [H|H]; auto; contradiction.
  - destruct (fst x <=? fst z); cbn; [|rewrite IH]; intuition auto.
Qed.

Lemma sorted_by_key_In {A} (y : Z * A) l :
  In y (sorted_by_key l) <-> In y l.
Proof.
  induction l as [|x l IH]; cbn; [tauto|].
  rewrite insert_by_key_In, IH. intuition auto.
Qed.

Lemma insert_by_key_sorted {A} (x : Z * A) l :
  StronglySorted by_key l -> StronglySorted by_key (insert_by_key x l).
Proof.
  induction 1 as [|y l Hl IH Hy]; cbn.
  - constructor; constructor.
  - destruct (Z.leb_spec (fst x) (fst y)) as [Hxy|Hxy].
    + constructor; [constructor; assumption|].
      constructor; [assumption|].
      rewrite Forall_forall in *. intros z Hz. specialize (Hy z Hz).
      unfold by_key in *. lia.
    + constructor; [assumption|].
      rewrite Forall_forall in *. intros z Hz.
      apply insert_by_key_In in Hz. destruct Hz as [->|Hz]; [|auto].
      unfold by_key. lia.
Qed.

Lemma sorted_by_key_sorted {A} (l : list (Z * A)) :
  StronglySorted by_key (sorted_by_key l).
Proof.
  induction l; cbn; [constructor|apply insert_by_key_sorted; assumption].
Qed.

Lemma last_item_In {A} (l : list A) :
  l <> [] -> exists x, last_item l = inr x /\ In x l.
Proof.
  induction l as [|x [|y l] IH]; intros H; [contradiction| |].
  - exists x. cbn. auto.
  - destruct IH as [z [E Hz]]; [discriminate|].
    exists z. split; [exact E|right; assumption].
Qed.

Lemma last_item_greatest {A} (l : list (Z * A)) x :
  StronglySorted by_key l -> last_item l = inr x ->
  forall y, In y l -> fst y <= fst x.
Proof.
  induction 1 as [|z l Hl IH Hz]; intros E y Hy; [contradiction|].
  destruct l as [|z' l].
  - cbn in E. injection E as <-. destruct Hy as [<-|[]]. lia.
  - change (last_item (z :: z' :: l)) with (last_item (z' :: l)) in E.
    destruct Hy as [<-|Hy]; [|auto].
    destruct (last_item_In (z' :: l)) as [w [Ew Hw]]; [discriminate|].
    rewrite Ew in E. injection E as <-.
    rewrite Forall_forall in Hz. apply (Hz w Hw).
Qed.

(** ** Digits *)

Lemma int_of_digits_inr l : forall acc,
  forallb is_digit l = true -> exists n, int_of_digits acc l = inr n.
Proof.
  induction l as [|c l IH]; intros acc H; cbn -[is_digit] in *.
  - eauto.
  - apply andb_prop in H. destruct H as [Hc Hl]. rewrite Hc. apply IH, Hl.
Qed.

Lemma int_of_str_digits digits :
  digits <> [] -> forallb is_digit digits = true ->
  exists n, int_of_str (string_of_list_ascii digits) = inr n.
Proof.
  intros Hne Hd. unfold int_of_str.
  rewrite list_ascii_of_string_of_list_ascii.
  destruct digits as [|c l]; [contradiction|].
  apply int_of_digits_inr, Hd.
Qed.

(** ** Restoring the latest checkpoint *)

Section Restore.
Context {ndarray scalar : Type}.
Variable world : outside ndarray scalar.
Variable o : opts scalar.

Lemma checkpoint_tuple_of_match name g :
  re_match filename_pattern name = Some g ->
  exists step path,
    checkpoint_tuple o g = inr (step, path) /\
    checkpoint_of o name step path.
Proof.
  intros H. destruct (re_match_sound name g H) as [stem [digits [Hs ->]]].
  destruct Hs as [pre [c [rest [_ [_ [_ [Hne [Hd _]]]]]]]].
  destruct (int_of_str_digits digits Hne Hd) as [n En].
  exists n, (os_path_join (logs_path o) (string_of_list_ascii stem)).
  split.
  - unfold checkpoint_tuple. cbn [group Nat.eqb]. rewrite En. reflexivity.
  - exists [(1%nat, stem); (2%nat, digits)],
      (string_of_list_ascii stem), (string_of_list_ascii digits).
    repeat split; assumption.
Qed.

Lemma checkpoint_of_tuple name g step path :
  re_match filename_pattern name = Some g ->
  checkpoint_of o name step path ->
  checkpoint_tuple o g = inr (step, path).
Proof.
  intros H [g' [stem [digits [H' [E1 [E2 [En ->]]]]]]].
  rewrite H in H'. injection H' as <-.
  unfold checkpoint_tuple. rewrite E2, En, E1. reflexivity.
Qed.

Lemma tuples_of_listing names :
  exists tuples,
    map_raising (checkpoint_tuple o)
      (not_None (map (re_match filename_pattern) names)) = inr tuples /\
    forall step path,
      In (step, path) tuples <->
      exists name, In name names /\ checkpoint_of o name step path.
Proof.
  destruct (map_raising_inr (checkpoint_tuple o)
              (not_None (map (re_match filename_pattern) names)))
    as [tuples [E Ht]].
  { intros g Hg. apply not_None_In, in_map_iff in Hg.
    destruct Hg as [name [Hm _]].
    destruct (checkpoint_tuple_of_match name g Hm) as [s [p [Et _]]]. eauto. }
  exists tuples. split; [assumption|]. intros step path. rewrite Ht.
  split.
  - intros [g [Hg Et]]. apply not_None_In, in_map_iff in Hg.
    destruct Hg as [name [Hm Hname]]. exists name. split; [assumption|].
    destruct (checkpoint_tuple_of_match name g Hm) as [s [p [Et' Hc]]].
    congruence.
  - intros [name [Hname Hc]].
    pose proof Hc as [g [_ [_ [Hm _]]]].
    exists g. split.
    + apply not_None_In, in_map_iff. eauto.
    + apply (checkpoint_of_tuple name); assumption.
Qed.

End Restore.


(** The example directory restores step [250]. *)
Example restores_step_250 :
  restored_iteration example_world example_opts [] =
  (inr 250,
   [OsListdir "logs";
    PrintToFileAndScreen
      "Restoring training from latest checkpoint: logs/model.ckpt-250";
    SaverRestore "logs/model.ckpt-250"]%string).
Proof. vm_compute. reflexivity. Qed.

(** What the pattern makes of a few names: it is anchored at the start
    only, the character before [index] is arbitrary, and both repetitions
    are greedy. *)
Example pattern_on_names :
  re_match filename_pattern "model.ckpt-1200.index" =
    Some [(1%nat, list_ascii_of_string "model.ckpt-1200");
          (2%nat, list_ascii_of_string "1200")] /\
  re_match filename_pattern "ckpt-1.index.ckpt-22.index.bak" =
    Some [(1%nat, list_ascii_of_string "ckpt-1.index.ckpt-22");
          (2%nat, list_ascii_of_string "22")] /\
  re_match filename_pattern "ckpt-1234index" =
    Some [(1%nat, list_ascii_of_string "ckpt-123");
          (2%nat, list_ascii_of_string "123")] /\
  re_match filename_pattern "model.ckpt-1200.data" = None /\
  re_match filename_pattern "ckpt-.index" = None.
Proof. repeat split; vm_compute; reflexivity. Qed.

Section RestoreBranches.
Context {ndarray scalar : Type}.
Variable world : outside ndarray scalar.
Variable o : opts scalar.

(** Without [restoring], and on every worker but worker 0, the counter
    starts at [0] and nothing is called. *)
Lemma not_restoring h :
  restoring o = false -> restored_iteration world o h = (inr 0, h).
Proof. intros H. unfold restored_iteration. rewrite H. reflexivity. Qed.

Lemma other_workers h :
  distributed_worker_index o <> 0 ->
  restored_iteration world o h = (inr 0, h).
Proof.
  intros H. unfold restored_iteration.
  rewrite (proj2 (Z.eqb_neq _ 0) H). destruct (restoring o); reflexivity.
Qed.

(** A log directory without a matching entry makes [filenames[-1]]
    raise. *)
Lemma nothing_to_restore h names :
  restoring o = true -> distributed_worker_index o = 0 ->
  os_listdir world h (logs_path o) = inr names ->
  (forall name, In name names -> re_match filename_pattern name = None) ->
  restored_iteration world o h =
  (inl IndexError, h ++ [OsListdir (logs_path o)]).
Proof.
  intros Hr Hw Hl Hn. unfold restored_iteration. rewrite Hr, Hw. cbn [Z.eqb].
  unfold restore_latest_checkpoint, bind, outside_call, lift. rewrite Hl.
  assert (E : not_None (map (re_match filename_pattern) names) = []).
  { clear Hl. induction names as [|n l IH]; [reflexivity|]. cbn [map].
    rewrite (Hn n (or_introl eq_refl)). cbn [not_None]. apply IH.
    intros m Hm. apply Hn. right. assumption. }
  rewrite E. reflexivity.
Qed.
End RestoreBranches.

(** ** The guarded training step *)

Ltac history_of_step :=
  repeat rewrite <- app_assoc; cbn [app]; intros [= _ <-]; auto.

Section Guard.
Context {ndarray scalar : Type}.
Variable zero : scalar.
Variable np_mean : ndarray -> scalar.
Variable times_100 : scalar -> scalar.
Variable flatten_last : ndarray -> exn + scalar.
Variable scalar_mul : scalar -> scalar -> scalar.
Variable feed_dict_lr : Z -> exn + scalar.
Variable world : outside ndarray scalar.
Variable o : opts scalar.

Local Abbreviation step :=
  (training_step zero np_mean times_100 flatten_last world).
Local Abbreviation suite :=
  (training_suite zero np_mean times_100 flatten_last scalar_mul
     feed_dict_lr world o).
Local Abbreviation guarded :=
  (run_training zero np_mean times_100 flatten_last scalar_mul
     feed_dict_lr world o).

(** The calls of one training step: the clock, the training op, and,
    unless the op raised, the clock again and at most one read of the
    outfeed. *)
Lemma training_step_calls lr h r h' :
  step lr h = (r, h') ->
  h' = h ++ [TimeTime; SessionRunTrain lr] \/
  h' = h ++ [TimeTime; SessionRunTrain lr; TimeTime] \/
  h' = h ++ [TimeTime; SessionRunTrain lr; TimeTime; SessionRunOutfeed].
Proof.
  unfold training_step, bind, outside_call, lift, ret.
  repeat rewrite <- app_assoc. cbn [app].
  destruct (session_run_train world (h ++ [TimeTime]) lr) as [e|[]].
  - history_of_step.
  - destruct (match TF_POPLAR_FLAGS world with
              | Some flags =>
                  String.eqb flags "" ||
                  negb (contains "--use_synthetic_data" flags)
              | None => true
              end).
    + destruct (session_run_outfeed world _) as [e|[[[l c] a] lr_out]].
      * history_of_step.
      * destruct (flatten_last lr_out); history_of_step.
    + history_of_step.
Qed.

(** The suite adds no call to those of the step. *)
Lemma suite_of_step i iterations_per_step lr h :
  feed_dict_lr (i + iterations_per_step / 2) = inr lr ->
  snd (suite i iterations_per_step h) = snd (step lr h) /\
  forall e,
    fst (step lr h) = inl e -> fst (suite i iterations_per_step h) = inl e.
Proof.
  intros E. unfold training_suite, bind, lift, ret. rewrite E.
  destruct (step lr h) as [[e|[[[l a] t] c]] h']; cbn.
  - split; [reflexivity|]. intros e' [= <-]. reflexivity.
  - split; [reflexivity|]. discriminate.
Qed.

(** Exceptions of other classes pass the [except] clause unchanged, and
    so does the result of a step that raises nothing. *)
Lemma other_errors_propagate i iterations_per_step h e h' :
  suite i iterations_per_step h = (inl e, h') ->
  is_OpError e = false ->
  guarded i iterations_per_step h = (inl e, h').
Proof.
  intros E He. unfold run_training, try_except.
  rewrite E, He. reflexivity.
Qed.

Lemma results_pass i iterations_per_step h r h' :
  suite i iterations_per_step h = (inr r, h') ->
  guarded i iterations_per_step h = (inr r, h').
Proof.
  intros E. unfold run_training, try_except.
  rewrite E. reflexivity.
Qed.

(** C8.  When the training step of an iteration raises an [OpError], of
    whatever class of [tf.errors], the guarded step raises
    [ResourceExhaustedError] with the node, the op and the message of the
    original; the calls made are those of the failed step, so nothing is
    run again. *)
Theorem op_error_reraised i iterations_per_step lr h code node_def op message h' :
  feed_dict_lr (i + iterations_per_step / 2) = inr lr ->
  step lr h = (inl (OpError code node_def op message), h') ->
  guarded i iterations_per_step h =
    (inl (ResourceExhaustedError node_def op message), h') /\
  (h' = h ++ [TimeTime; SessionRunTrain lr] \/
   h' = h ++ [TimeTime; SessionRunTrain lr; TimeTime; SessionRunOutfeed]).
Proof.
  intros Elr Estep. split.
  - destruct (suite_of_step i iterations_per_step lr h Elr) as [Hh He].
    rewrite Estep in Hh, He. cbn [fst snd] in Hh, He.
    specialize (He _ eq_refl).
    unfold run_training, try_except.
    destruct (suite i iterations_per_step h) as [r h''].
    cbn [fst snd] in Hh, He. subst r h''. reflexivity.
  - revert Estep.
    unfold training_step, bind, outside_call, lift, ret.
    repeat rewrite <- app_assoc. cbn [app].
    destruct (session_run_train world (h ++ [TimeTime]) lr) as [e|[]].
    + history_of_step.
    + destruct (match TF_POPLAR_FLAGS world with
                | Some flags =>
                    String.eqb flags "" ||
                    negb (contains "--use_synthetic_data" flags)
                | None => true
                end).
      * destruct (session_run_outfeed world _) as [e|[[[l c] a] lr_out]].
        -- history_of_step.
        -- destruct (flatten_last lr_out); [history_of_step|discriminate].
      * discriminate.
Qed.
End Guard.

Lemma op_error_reraised_witness :
  run_training 0 (fun _ => 0) (fun x => 100 * x) (fun _ => inr 0) Z.mul
    (fun i => inr i) example_world example_opts 0 4 [] =
    (inl (ResourceExhaustedError "node" "train_op" "Out of memory"),
     [TimeTime; SessionRunTrain 2]) /\
  ([TimeTime; SessionRunTrain 2] = [] ++ [TimeTime; SessionRunTrain 2] \/
   [TimeTime; SessionRunTrain 2] =
     [] ++ [TimeTime; SessionRunTrain 2; TimeTime; SessionRunOutfeed]).
Proof.
  apply (op_error_reraised 0 (fun _ => 0) (fun x => 100 * x) (fun _ => inr 0)
           Z.mul (fun i => inr i) example_world example_opts 0 4 2 []
           INTERNAL).
  - reflexivity.
  - reflexivity.
Defined.

(* ===================================================================== *)
(** * More properties of [BatchConfig] *)
(* ===================================================================== *)

Lemma completed_not_negative mbs nr gac0 gbs0 c log :
  new_BatchConfig mbs nr gac0 gbs0 = (inr c, log) ->
  exists gac gbs,
    c = resolved mbs nr gac gbs /\
    0 < mbs /\ 0 < nr /\ 0 <= gac /\ 0 <= gbs /\ 0 <= gac * nr.
Proof.
  intros H.
  pose proof (completed_is_resolved _ _ _ _ _ _ H) as [Hm [Hr [gac [gbs [E Hg]]]]].
  exists gac, gbs. repeat (split; [assumption|]). split; [|nia].
  pose proof (new_completed _ _ _ _ _ _ H) as Hc.
  destruct Hc as [_ [_ [[g [_ [_ [Hg0 [E' _]]]]]|[g [q [n [_ [_ [Hg0 [_ Hc]]]]]]]]]].
  - rewrite E in E'. injection E' as -> ->. nia.
  - destruct Hc as [[_ [_ [E' _]]]|[_ [_ [E' _]]]];
      rewrite E in E'; injection E' as -> ->; nia.
Qed.

(** X1.  Below [2 ^ 53] the two ways of constructing agree: the global
    batch size that a count gives, handed back as the global batch size,
    constructs the same object with the same log. *)
Theorem count_global_round_trip mbs nr gac :
  0 < mbs -> 0 < nr -> 0 < gac -> mbs * nr * gac < 2 ^ 53 ->
  new_BatchConfig mbs nr None (Some (mbs * nr * gac)) =
  new_BatchConfig mbs nr (Some gac) None.
Proof.
  intros Hm Hr Hg Hlt.
  assert (Hb : 0 < mbs * nr) by nia.
  rewrite new_from_count by assumption.
  rewrite new_from_global_divisible; try assumption; try nia.
  - replace (mbs * nr * gac / (mbs * nr)) with gac; [reflexivity|].
    symmetry. rewrite Z.mul_comm. apply Z.div_mul. lia.
  - rewrite Z.mul_comm. apply Z.mod_mul. lia.
Qed.

Lemma count_global_round_trip_witness :
  new_BatchConfig 4 2 None (Some (4 * 2 * 3)) =
  new_BatchConfig 4 2 (Some 3) None.
Proof.
  apply (count_global_round_trip 4 2 3); reflexivity.
Defined.

(** X2.  A global batch size that the construction has settled on is kept
    when it is handed in again: the same object results, and only the four
    information records are logged. *)
Theorem renormalised_is_stable mbs nr gbs c log gbs' :
  new_BatchConfig mbs nr None (Some gbs) = (inr c, log) ->
  global_batch_size c = Some gbs' ->
  0 < gbs' -> gbs' < 2 ^ 53 ->
  new_BatchConfig mbs nr None (Some gbs') = (inr c, info_records c).
Proof.
  intros H E Hpos Hlt.
  pose proof (new_completed _ _ _ _ _ _ H) as Hc.
  destruct Hc as [Hm [Hr [[gac [E0 _]]|[g [q [n [_ [E1 [Hg [Hq Hc]]]]]]]]]];
    [discriminate|].
  injection E1 as <-.
  assert (Hb : 0 < mbs * nr) by nia.
  destruct Hc as [[Hd [_ [Hcfg _]]]|[_ [_ [Hcfg _]]]].
  - assert (gbs' = gbs) as -> by (rewrite Hcfg in E; cbn in E; congruence).
    rewrite new_from_global_divisible in H by assumption.
    injection H as <- _. apply new_from_global_divisible; assumption.
  - rewrite Hcfg in E. cbn in E. injection E as <-.
    assert (Hn : 0 < n) by nia.
    rewrite new_from_global_divisible; try assumption.
    + rewrite Hcfg.
      replace (mbs * nr * n / (mbs * nr)) with n; [reflexivity|].
      symmetry. rewrite Z.mul_comm. apply Z.div_mul. lia.
    + rewrite Z.mul_comm. apply Z.mod_mul. lia.
Qed.

Lemma renormalised_is_stable_witness :
  new_BatchConfig 4 2 None (Some 32) =
  (inr (resolved 4 2 4 32), info_records (resolved 4 2 4 32)).
Proof.
  apply (renormalised_is_stable 4 2 30 (resolved 4 2 4 32)
           (snd (new_BatchConfig 4 2 None (Some 30))) 32).
  - vm_compute. reflexivity.
  - reflexivity.
  - reflexivity.
  - reflexivity.
Defined.

(** X3.  A construction from a global batch size keeps that size exactly
    when it is a multiple of [micro_batch_size * num_replicas], and that is
    exactly when it logs no warning. *)
Theorem honoured_iff_silent mbs nr gbs c log :
  new_BatchConfig mbs nr None (Some gbs) = (inr c, log) ->
  (global_batch_size c = Some gbs <-> gbs mod (mbs * nr) = 0) /\
  (warnings log = [] <-> gbs mod (mbs * nr) = 0).
Proof.
  intros H.
  pose proof (new_completed _ _ _ _ _ _ H) as Hc.
  destruct Hc as [Hm [Hr [[gac [E0 _]]|[g [q [n [_ [E1 [Hg [Hq Hc]]]]]]]]]];
    [discriminate|].
  injection E1 as <-.
  assert (Hb : 0 < mbs * nr) by nia.
  destruct Hc as [[Hd [_ [-> ->]]]|[Hd [_ [-> ->]]]]; cbn.
  - split; split; auto.
  - split; split; intros E; try contradiction; try discriminate.
    exfalso. apply Hd. injection E as <-.
    rewrite Z.mul_comm. apply Z.mod_mul. lia.
Qed.

Lemma honoured_iff_silent_witness :
  (global_batch_size (resolved 4 2 4 32) = Some 30 <-> 30 mod (4 * 2) = 0) /\
  (warnings (snd (new_BatchConfig 4 2 None (Some 30))) = [] <->
   30 mod (4 * 2) = 0).
Proof.
  apply (honoured_iff_silent 4 2 30 (resolved 4 2 4 32)
           (snd (new_BatchConfig 4 2 None (Some 30)))).
  vm_compute. reflexivity.
Defined.

(** X4.  Whatever completes has positive [micro_batch_size] and
    [num_replicas], and no field below zero: the count, the global batch
    size and [num_micro_batches_per_weight_update] are at least [0]. *)
Theorem resolved_fields_not_negative mbs nr gac0 gbs0 c log :
  new_BatchConfig mbs nr gac0 gbs0 = (inr c, log) ->
  exists gac gbs,
    c = resolved mbs nr gac gbs /\
    0 < mbs /\ 0 < nr /\ 0 <= gac /\ 0 <= gbs /\ 0 <= gac * nr.
Proof. apply completed_not_negative. Qed.

Lemma resolved_fields_not_negative_witness :
  exists gac gbs,
    resolved 4 2 0 0 = resolved 4 2 gac gbs /\
    0 < 4 /\ 0 < 2 /\ 0 <= gac /\ 0 <= gbs /\ 0 <= gac * 2.
Proof.
  apply (resolved_fields_not_negative 4 2 None (Some 3) (resolved 4 2 0 0)
           (snd (new_BatchConfig 4 2 None (Some 3)))).
  vm_compute. reflexivity.
Defined.

(** X5.  With no instance, or more instances than the global batch size,
    the batch of one instance is empty: [get_num_discarded_samples] divides
    by zero, and [get_num_padding_samples] returns [0] for no discarded
    sample without dividing, divides by zero for no instance, and otherwise
    returns a negative padding. *)
Theorem too_many_instances mbs nr gac0 gbs0 c log gbs size discarded instances :
  new_BatchConfig mbs nr gac0 gbs0 = (inr c, log) ->
  global_batch_size c = Some gbs ->
  instances = 0 \/ gbs < instances ->
  get_num_discarded_samples c size instances = inl ZeroDivisionError /\
  get_num_padding_samples c discarded instances =
    (if discarded =? 0 then inr 0
     else if instances =? 0 then inl ZeroDivisionError
     else inr (- discarded)).
Proof.
  intros H E Hn.
  destruct (completed_not_negative _ _ _ _ _ _ H)
    as [gac [g [-> [_ [_ [_ [Hg _]]]]]]].
  cbn in E. injection E as ->.
  unfold get_num_discarded_samples, get_num_padding_samples, run, bind, lift,
    ret, int_floordiv, int_mod.
  cbn [global_batch_size resolved as_int].
  destruct (Z.eqb_spec instances 0) as [->|Hne].
  - destruct (discarded =? 0); split; reflexivity.
  - destruct Hn as [Hn|Hn]; [contradiction|].
    rewrite Z.div_small by lia. cbn [Z.eqb].
    destruct (discarded =? 0); split; reflexivity.
Qed.

Lemma too_many_instances_witness :
  get_num_discarded_samples (resolved 4 2 1 8) 1000 16 = inl ZeroDivisionError /\
  get_num_padding_samples (resolved 4 2 1 8) 5 16 =
    (if 5 =? 0 then inr 0
     else if 16 =? 0 then inl ZeroDivisionError
     else inr (- 5)).
Proof.
  apply (too_many_instances 4 2 (Some 1) None (resolved 4 2 1 8)
           (snd (new_BatchConfig 4 2 (Some 1) None)) 8 1000 5 16).
  - vm_compute. reflexivity.
  - reflexivity.
  - right. reflexivity.
Defined.

(** X6.  On a constructed object whose count is not zero,
    [get_num_micro_batches_per_epoch] returns a whole number of weight
    updates, and the samples they hold fall short of [dataset_size] by less
    than the samples of one weight update. *)
Theorem epoch_fits_dataset mbs nr gac0 gbs0 c log gac size :
  new_BatchConfig mbs nr gac0 gbs0 = (inr c, log) ->
  gradient_accumulation_count c = Some gac -> gac <> 0 ->
  exists n,
    get_num_micro_batches_per_epoch c size = inr n /\
    n mod (gac * nr) = 0 /\
    n * mbs <= size < n * mbs + mbs * (gac * nr).
Proof.
  intros H E Hne.
  destruct (completed_not_negative _ _ _ _ _ _ H)
    as [g [gbs [-> [Hm [Hr [Hg _]]]]]].
  cbn in E. injection E as ->.
  assert (Hd : 0 < mbs * (gac * nr)) by nia.
  exists (size / (mbs * (gac * nr)) * (gac * nr)).
  split.
  - apply (micro_batches_value (resolved mbs nr gac gbs) (gac * nr) size);
      [reflexivity|cbn; lia].
  - split; [apply Z.mod_mul; nia|].
    pose proof (Z.div_mod size (mbs * (gac * nr)) ltac:(lia)) as Hq.
    pose proof (Z.mod_pos_bound size (mbs * (gac * nr)) Hd) as Hb.
    nia.
Qed.

Lemma epoch_fits_dataset_witness :
  exists n,
    get_num_micro_batches_per_epoch (resolved 4 2 3 24) 1000 = inr n /\
    n mod (3 * 2) = 0 /\
    n * 4 <= 1000 < n * 4 + 4 * (3 * 2).
Proof.
  apply (epoch_fits_dataset 4 2 (Some 3) None (resolved 4 2 3 24)
           (snd (new_BatchConfig 4 2 (Some 3) None)) 3 1000).
  - vm_compute. reflexivity.
  - reflexivity.
  - discriminate.
Defined.

(* ===================================================================== *)
(** * More properties of the driver *)
(* ===================================================================== *)

(** [sub in s] is substring containment. *)
Lemma prefix_app sub : forall s,
  String.prefix sub s = true <-> exists post, s = (sub ++ post)%string.
Proof.
  induction sub as [|c sub IH]; intros s.
  - split; [intros _; exists s; reflexivity|intros _; destruct s; reflexivity].
  - destruct s as [|c' s]; cbn.
    + split; [discriminate|intros [post E]; discriminate].
    + destruct (Ascii.ascii_dec c c') as [->|Hne].
      * rewrite IH. split; intros [post E]; exists post; congruence.
      * split; [discriminate|]. intros [post E]. congruence.
Qed.

Lemma contains_spec sub s :
  contains sub s = true <-> exists pre post, s = (pre ++ sub ++ post)%string.
Proof.
  induction s as [|c s IH]; cbn [contains].
  - destruct (String.prefix sub "") eqn:E.
    + split; [intros _|intros _; reflexivity].
      apply prefix_app in E. destruct E as [post E].
      exists ""%string, post. assumption.
    + split; [discriminate|]. intros [pre [post E']].
      destruct pre; [|discriminate]. cbn in E'.
      assert (String.prefix sub "" = true) by (apply prefix_app; eauto).
      congruence.
  - destruct (String.prefix sub (String c s)) eqn:E.
    + split; [intros _|intros _; reflexivity].
      apply prefix_app in E. destruct E as [post E].
      exists ""%string, post. assumption.
    + rewrite IH. split.
      * intros [pre [post ->]]. exists (String c pre), post. reflexivity.
      * intros [pre [post E']]. destruct pre as [|c' pre].
        -- cbn in E'. assert (String.prefix sub (String c s) = true)
             by (apply prefix_app; eauto). congruence.
        -- cbn in E'. injection E' as _ ->. eauto.
Qed.

Lemma list_ascii_of_string_app s t :
  list_ascii_of_string (s ++ t) = list_ascii_of_string s ++ list_ascii_of_string t.
Proof. induction s as [|c s IH]; cbn; [reflexivity|]. rewrite IH. reflexivity. Qed.

(** X7.  [filename_pattern.match] accepts exactly the names that begin with
    any text of one line, [ckpt-], at least one digit, any one character
    that is no newline and [index]; what follows is not looked at, so a
    name that is accepted stays accepted with any suffix. *)
Theorem pattern_accepts_shape name :
  (re_match filename_pattern name <> None <->
   exists stem digits, checkpoint_index (list_ascii_of_string name) stem digits) /\
  (forall suffix,
     re_match filename_pattern name <> None ->
     re_match filename_pattern (name ++ suffix) <> None).
Proof.
  assert (Hiff : forall n,
            re_match filename_pattern n <> None <->
            exists stem digits, checkpoint_index (list_ascii_of_string n) stem digits).
  { intros n. split.
    - destruct (re_match filename_pattern n) as [g|] eqn:E; [intros _|contradiction].
      destruct (re_match_sound n g E) as [stem [digits [H _]]]. eauto.
    - intros [stem [digits H]]. apply (re_match_complete n stem digits H). }
  split; [apply Hiff|].
  intros suffix H. apply Hiff in H. destruct H as [stem [digits H]].
  apply Hiff. exists stem, digits.
  destruct H as [pre [c [rest [E H]]]].
  exists pre, c, (rest ++ list_ascii_of_string suffix)%list.
  split; [|exact H].
  rewrite list_ascii_of_string_app, E. repeat rewrite <- app_assoc. reflexivity.
Qed.

Lemma int_of_digits_nonneg l : forall acc n,
  0 <= acc -> int_of_digits acc l = inr n -> 0 <= n.
Proof.
  induction l as [|c l IH]; intros acc n Hacc; cbn [int_of_digits].
  - intros E. apply inr_eq in E. lia.
  - destruct (is_digit c) eqn:Hc; [|discriminate].
    apply IH. unfold is_digit in Hc. cbv zeta in Hc. unfold digit_value.
    apply andb_prop in Hc. destruct Hc as [Hc _]. apply Z.leb_le in Hc. lia.
Qed.

Lemma int_of_str_nonneg s n : int_of_str s = inr n -> 0 <= n.
Proof.
  unfold int_of_str. destruct (list_ascii_of_string s) as [|c l]; [discriminate|].
  apply int_of_digits_nonneg. lia.
Qed.

Section RestoreEdges.
Context {ndarray scalar : Type}.
Variable world : outside ndarray scalar.
Variable o : opts scalar.

(** X8.  On the first worker a restore with nothing to restore from does
    not start at zero: an error of [os.listdir] propagates, and a listing
    with no checkpoint index is an [IndexError]; either way the listing is
    the only call made. *)
Theorem restore_without_checkpoint h :
  restoring o = true -> distributed_worker_index o = 0 ->
  (forall e, os_listdir world h (logs_path o) = inl e ->
     restored_iteration world o h = (inl e, h ++ [OsListdir (logs_path o)])) /\
  (forall names, os_listdir world h (logs_path o) = inr names ->
     (forall name, In name names -> re_match filename_pattern name = None) ->
     restored_iteration world o h =
     (inl IndexError, h ++ [OsListdir (logs_path o)])).
Proof.
  intros Hr Hw. split.
  - intros e He. unfold restored_iteration. rewrite Hr, Hw. cbn [Z.eqb].
    unfold restore_latest_checkpoint, bind, outside_call. rewrite He. reflexivity.
  - intros names Hl Hn. apply (nothing_to_restore world o h names); assumption.
Qed.

(** X9.  An iteration that the restore returns on the first worker is never
    made up: the listing succeeded and holds a checkpoint index with that
    number, none holds a greater one, the number is not negative, and the
    calls made are the listing, the message and the restore of that
    checkpoint, in this order. *)
Theorem restored_counter_is_backed h i h' :
  restoring o = true -> distributed_worker_index o = 0 ->
  restored_iteration world o h = (inr i, h') ->
  exists names path,
    os_listdir world h (logs_path o) = inr names /\
    h' = h ++ [OsListdir (logs_path o);
               PrintToFileAndScreen (restoring_msg path);
               SaverRestore path] /\
    (exists name, In name names /\ checkpoint_of o name i path) /\
    (forall name j p, In name names -> checkpoint_of o name j p -> j <= i) /\
    0 <= i.
Proof.
  intros Hr Hw. unfold restored_iteration. rewrite Hr, Hw. cbn [Z.eqb].
  unfold restore_latest_checkpoint, bind, outside_call, lift, ret.
  destruct (os_listdir world h (logs_path o)) as [e|names] eqn:Hl; [discriminate|].
  destruct (tuples_of_listing o names) as [tuples [Et Htuples]].
  rewrite Et.
  destruct (last_item (sorted_by_key tuples)) as [e|[j path]] eqn:El; [discriminate|].
  cbn [fst snd].
  destruct (print_to_file_and_screen world _ _) as [e|[]]; [discriminate|].
  destruct (saver_restore world _ _) as [e|[]]; [discriminate|].
  intros E. injection E as <- <-.
  assert (Hin : In (j, path) (sorted_by_key tuples)).
  { destruct (sorted_by_key tuples) as [|x l] eqn:Es; [discriminate|].
    destruct (last_item_In (x :: l)) as [y [Ey Hy]]; [discriminate|].
    rewrite Ey in El. apply inr_eq in El. subst y. assumption. }
  exists names, path. split; [reflexivity|]. split.
  { unfold restoring_msg. repeat rewrite <- app_assoc. reflexivity. }
  pose proof Hin as Hin'. apply sorted_by_key_In, Htuples in Hin'.
  split; [assumption|]. split.
  - intros name k p Hn Hc.
    assert (Hk : In (k, p) (sorted_by_key tuples))
      by (apply sorted_by_key_In, Htuples; eauto).
    apply (last_item_greatest _ _ (sorted_by_key_sorted tuples) El) in Hk.
    exact Hk.
  - destruct Hin' as [name [_ [g [stem [digits [_ [_ [_ [En _]]]]]]]]].
    apply int_of_str_nonneg in En. assumption.
Qed.

End RestoreEdges.

Lemma restore_without_checkpoint_witness :
  (forall e, os_listdir synthetic_world [] (logs_path example_opts) = inl e ->
     restored_iteration synthetic_world example_opts [] =
     (inl e, [] ++ [OsListdir (logs_path example_opts)])) /\
  (forall names,
     os_listdir synthetic_world [] (logs_path example_opts) = inr names ->
     (forall name, In name names -> re_match filename_pattern name = None) ->
     restored_iteration synthetic_world example_opts [] =
     (inl IndexError, [] ++ [OsListdir (logs_path example_opts)])).
Proof.
  apply (restore_without_checkpoint synthetic_world example_opts []);
    reflexivity.
Defined.

Lemma restored_counter_is_backed_witness :
  exists names path,
    os_listdir example_world [] (logs_path example_opts) = inr names /\
    [@OsListdir Z "logs";
     PrintToFileAndScreen (restoring_msg "logs/model.ckpt-250");
     SaverRestore "logs/model.ckpt-250"] =
    [] ++ [OsListdir (logs_path example_opts);
           PrintToFileAndScreen (restoring_msg path);
           SaverRestore path] /\
    (exists name, In name names /\ checkpoint_of example_opts name 250 path) /\
    (forall name j p,
       In name names -> checkpoint_of example_opts name j p -> j <= 250) /\
    0 <= 250.
Proof.
  apply (restored_counter_is_backed example_world example_opts [] 250
           [OsListdir "logs"%string;
            PrintToFileAndScreen (restoring_msg "logs/model.ckpt-250");
            SaverRestore "logs/model.ckpt-250"%string]).
  - reflexivity.
  - reflexivity.
  - vm_compute. reflexivity.
Defined.

Section StepEdges.
Context {ndarray scalar : Type}.
Variable zero : scalar.
Variable np_mean : ndarray -> scalar.
Variable times_100 : scalar -> scalar.
Variable flatten_last : ndarray -> exn + scalar.
Variable scalar_mul : scalar -> scalar -> scalar.
Variable feed_dict_lr : Z -> exn + scalar.
Variable world : outside ndarray scalar.
Variable o : opts scalar.

(** X10.  When [TF_POPLAR_FLAGS] mentions [--use_synthetic_data] a training
    step that runs does not read the outfeed: it reads the clock, runs the
    training operation, reads the clock again, and returns zero for the
    loss, the accuracy and the learning rate beside the time between the
    two readings. *)
Theorem synthetic_data_skips_outfeed lr h flags :
  TF_POPLAR_FLAGS world = Some flags ->
  (exists pre post, flags = (pre ++ "--use_synthetic_data" ++ post)%string) ->
  session_run_train world (h ++ [TimeTime]) lr = inr tt ->
  training_step zero np_mean times_100 flatten_last world lr h =
  (inr (zero, zero,
        SFsub prec emax
          (time_time world (h ++ [TimeTime; SessionRunTrain lr]))
          (time_time world h),
        zero),
   h ++ [TimeTime; SessionRunTrain lr; TimeTime]).
Proof.
  intros Hf Hsub Hrun.
  apply contains_spec in Hsub.
  assert (Hne : String.eqb flags "" = false).
  { destruct flags; [|reflexivity]. cbn in Hsub. discriminate. }
  unfold training_step, bind, outside_call, lift, ret.
  rewrite Hrun, Hf, Hsub, Hne. cbn [orb negb].
  repeat rewrite <- app_assoc. reflexivity.
Qed.

(** X11.  The only [tf.errors.OpError] that leaves the guarded training
    step is a [ResourceExhaustedError]. *)
Theorem only_resource_exhausted_escapes i iterations_per_step h e h' :
  run_training zero np_mean times_100 flatten_last scalar_mul feed_dict_lr
    world o i iterations_per_step h = (inl e, h') ->
  is_OpError e = true ->
  exists node_def op message, e = ResourceExhaustedError node_def op message.
Proof.
  unfold run_training, try_except.
  destruct (training_suite _ _ _ _ _ _ _ _ _ _ h) as [[e0|r] h''].
  - destruct e0; cbn; intros E; try (injection E as <- _; discriminate).
    unfold raise in E. injection E as <- _. eauto.
  - discriminate.
Qed.

End StepEdges.

Lemma synthetic_data_skips_outfeed_witness :
  training_step 0 (fun _ => 0) (fun x => 100 * x) (fun _ => inr 0)
    synthetic_world 2 [] =
  (inr (0, 0,
        SFsub prec emax
          (time_time synthetic_world ([] ++ [TimeTime; SessionRunTrain 2]))
          (time_time synthetic_world []),
        0),
   [] ++ [TimeTime; SessionRunTrain 2; TimeTime]).
Proof.
  apply (synthetic_data_skips_outfeed 0 (fun _ => 0) (fun x => 100 * x)
           (fun _ => inr 0) synthetic_world 2 []
           "--use_synthetic_data --synthetic_data_initializer=random").
  - reflexivity.
  - exists ""%string, " --synthetic_data_initializer=random"%string.
    reflexivity.
  - reflexivity.
Defined.

Lemma only_resource_exhausted_escapes_witness :
  exists node_def op message,
    ResourceExhaustedError "node" "train_op" "Out of memory" =
    ResourceExhaustedError node_def op message.
Proof.
  apply (only_resource_exhausted_escapes 0 (fun _ => 0) (fun x => 100 * x)
           (fun _ => inr 0) Z.mul (fun i => inr i) example_world example_opts
           0 4 [] (ResourceExhaustedError "node" "train_op" "Out of memory")
           [TimeTime; SessionRunTrain 2]).
  - reflexivity.
  - reflexivity.
Defined.

(* ===================================================================== *)
(** * Properties of the data set constants *)
(* ===================================================================== *)

Lemma firstn_seq_le k : forall start n,
  (k <= n)%nat -> firstn k (seq start n) = seq start k.
Proof.
  induction k as [|k IH]; intros start n H; [reflexivity|].
  destruct n as [|n]; [lia|]. cbn. f_equal. apply IH. lia.
Qed.

Lemma range_firstn (f : nat -> string) k n :
  k <= n -> map f (range k) = firstn (Z.to_nat k) (map f (range n)).
Proof.
  intros H. unfold range. rewrite firstn_map. f_equal.
  symmetry. apply firstn_seq_le. lia.
Qed.

Lemma len_range (f : nat -> string) n : 0 <= n -> len (map f (range n)) = n.
Proof.
  intros H. unfold len, range. rewrite length_map, length_seq. lia.
Qed.

Ltac run_reconfigure :=
  unfold reconfigure_dataset_constants, bind, modify, get_constants, lift,
    warnings_warn, print, set_imagenet, ret;
  cbn [the_constants written imagenet cifar_10 cifar_100 fst snd].

Lemma remember_unscaled_pristine d :
  pristine d ->
  UNSCALED_NUM_IMAGES (remember_unscaled d) = Some (NUM_IMAGES d) /\
  NUM_IMAGES (remember_unscaled d) = NUM_IMAGES d /\
  FILENAMES_TRAIN (remember_unscaled d) = FILENAMES_TRAIN d /\
  FILENAMES_TEST (remember_unscaled d) = FILENAMES_TEST d.
Proof.
  unfold remember_unscaled. intros [H|H]; rewrite H; cbn; auto.
Qed.

Lemma remember_unscaled_idem d :
  remember_unscaled (remember_unscaled d) = remember_unscaled d.
Proof.
  unfold remember_unscaled.
  destruct (UNSCALED_NUM_IMAGES d) eqn:E; [rewrite E|]; reflexivity.
Qed.

Lemma remember_unscaled_fields d :
  NUM_IMAGES (remember_unscaled d) = NUM_IMAGES d /\
  FILENAMES_TRAIN (remember_unscaled d) = FILENAMES_TRAIN d /\
  FILENAMES_TEST (remember_unscaled d) = FILENAMES_TEST d /\
  UNSCALED_NUM_IMAGES (remember_unscaled d) <> None /\
  (forall u, UNSCALED_NUM_IMAGES d = Some u ->
             UNSCALED_NUM_IMAGES (remember_unscaled d) = Some u).
Proof.
  unfold remember_unscaled.
  destruct (UNSCALED_NUM_IMAGES d) eqn:E; cbn; repeat split; auto; try congruence.
Qed.

(** The reducing branch. *)
Lemma reconfigure_reduces s pct stack :
  pristine (imagenet (the_constants s)) -> pct < 100 ->
  let d := remember_unscaled (imagenet (the_constants s)) in
  let c' :=
    {| imagenet :=
         reduced d (pct * NUM_IMAGES d / 100)
           (imagenet_train_files (len (FILENAMES_TRAIN d) * pct / 100))
           (imagenet_test_files (len (FILENAMES_TEST d) * pct / 100));
       cifar_10 := remember_unscaled (cifar_10 (the_constants s));
       cifar_100 := remember_unscaled (cifar_100 (the_constants s)) |} in
  reconfigure_dataset_constants (Some "imagenet"%string) pct stack s =
  (inr c',
   {| the_constants := c';
      written := written s ++
        [Printed (reducing "NUM_IMAGES" (NUM_IMAGES d)
                    (pct * NUM_IMAGES d / 100) pct);
         Printed (reducing "num_train_files" (len (FILENAMES_TRAIN d))
                    (len (FILENAMES_TRAIN d) * pct / 100) pct);
         Printed (reducing "num_test_files" (len (FILENAMES_TEST d))
                    (len (FILENAMES_TEST d) * pct / 100) pct)] |}).
Proof.
  intros Hp Hlt. cbv zeta.
  destruct (remember_unscaled_pristine _ Hp) as [Hu [Hn _]].
  run_reconfigure. cbn [String.eqb Ascii.eqb Bool.eqb andb].
  rewrite (proj2 (Z.ltb_lt pct 100) Hlt), Hu. cbn [as_int].
  replace (NUM_IMAGES (imagenet (the_constants s)) =?
           NUM_IMAGES (remember_unscaled (imagenet (the_constants s))))
    with true by (symmetry; apply Z.eqb_eq; congruence).
  cbn [negb]. run_reconfigure.
  repeat rewrite <- app_assoc. reflexivity.
Qed.

(** The guarded branch. *)
Lemma reconfigure_skips s pct stack u :
  UNSCALED_NUM_IMAGES (imagenet (the_constants s)) = Some u ->
  u <> NUM_IMAGES (imagenet (the_constants s)) -> pct < 100 ->
  let c' :=
    {| imagenet := imagenet (the_constants s);
       cifar_10 := remember_unscaled (cifar_10 (the_constants s));
       cifar_100 := remember_unscaled (cifar_100 (the_constants s)) |} in
  reconfigure_dataset_constants (Some "imagenet"%string) pct stack s =
  (inr c',
   {| the_constants := c';
      written := written s ++ [Warned (already_invoked stack)] |}).
Proof.
  intros Hu Hne Hlt. cbv zeta.
  assert (Hr : remember_unscaled (imagenet (the_constants s)) =
               imagenet (the_constants s))
    by (unfold remember_unscaled; rewrite Hu; reflexivity).
  run_reconfigure. cbn [String.eqb Ascii.eqb Bool.eqb andb].
  rewrite (proj2 (Z.ltb_lt pct 100) Hlt), Hr, Hu. cbn [as_int].
  rewrite (proj2 (Z.eqb_neq _ _) Hne). cbn [negb]. run_reconfigure.
  reflexivity.
Qed.

(** Every other call. *)
Lemma reconfigure_passes s dataset pct stack :
  dataset <> Some "imagenet"%string \/ 100 <= pct ->
  let c' :=
    {| imagenet := remember_unscaled (imagenet (the_constants s));
       cifar_10 := remember_unscaled (cifar_10 (the_constants s));
       cifar_100 := remember_unscaled (cifar_100 (the_constants s)) |} in
  reconfigure_dataset_constants dataset pct stack s =
  (inr c', {| the_constants := c'; written := written s |}).
Proof.
  intros H. cbv zeta. run_reconfigure.
  assert (E : (match dataset with
               | Some n => String.eqb n "imagenet"
               | None => false
               end && (pct <? 100))%bool = false).
  { destruct H as [H|H].
    - destruct dataset as [n|]; [|reflexivity].
      destruct (String.eqb_spec n "imagenet"); [congruence|reflexivity].
    - rewrite (proj2 (Z.ltb_ge pct 100) H). apply andb_false_r. }
  rewrite E. reflexivity.
Qed.

(** The three outcomes of a call, on the constants. *)
Lemma reconfigure_constants s dataset pct stack :
  let d := imagenet (the_constants s) in
  let c' := the_constants (snd (reconfigure_dataset_constants dataset pct stack s)) in
  cifar_10 c' = remember_unscaled (cifar_10 (the_constants s)) /\
  cifar_100 c' = remember_unscaled (cifar_100 (the_constants s)) /\
  (imagenet c' = remember_unscaled d \/
   (dataset = Some "imagenet"%string /\ pct < 100 /\ pristine d /\
    imagenet c' =
      reduced (remember_unscaled d) (pct * NUM_IMAGES d / 100)
        (imagenet_train_files (len (FILENAMES_TRAIN d) * pct / 100))
        (imagenet_test_files (len (FILENAMES_TEST d) * pct / 100)))).
Proof.
  cbv zeta.
  assert (Hpass : dataset <> Some "imagenet"%string \/ 100 <= pct ->
    cifar_10 (the_constants (snd (reconfigure_dataset_constants dataset pct stack s))) =
      remember_unscaled (cifar_10 (the_constants s)) /\
    cifar_100 (the_constants (snd (reconfigure_dataset_constants dataset pct stack s))) =
      remember_unscaled (cifar_100 (the_constants s)) /\
    imagenet (the_constants (snd (reconfigure_dataset_constants dataset pct stack s))) =
      remember_unscaled (imagenet (the_constants s))).
  { intros H. rewrite (reconfigure_passes s dataset pct stack H). cbn. auto. }
  destruct (Z.lt_ge_cases pct 100) as [Hlt|Hge].
  2:{ destruct Hpass as [H1 [H2 H3]]; auto. }
  destruct dataset as [n|].
  2:{ destruct Hpass as [H1 [H2 H3]]; [left; discriminate|auto]. }
  destruct (String.eqb_spec n "imagenet") as [->|Hn].
  2:{ destruct Hpass as [H1 [H2 H3]]; [left; congruence|auto]. }
  clear Hpass.
  destruct (UNSCALED_NUM_IMAGES (imagenet (the_constants s))) as [u|] eqn:Eu.
  - destruct (Z.eq_dec u (NUM_IMAGES (imagenet (the_constants s)))) as [->|Hne].
    + assert (Hp : pristine (imagenet (the_constants s))) by (right; assumption).
      pose proof (reconfigure_reduces s pct stack Hp Hlt) as E. cbv zeta in E.
      rewrite E. cbn [snd the_constants imagenet cifar_10 cifar_100].
      split; [reflexivity|]. split; [reflexivity|]. right.
      destruct (remember_unscaled_pristine _ Hp) as [Hu [Hn [Htr Hte]]].
      rewrite Hn, Htr, Hte in *. auto 10.
    + pose proof (reconfigure_skips s pct stack u Eu Hne Hlt) as E. cbv zeta in E.
      rewrite E. cbn [snd the_constants imagenet cifar_10 cifar_100].
      split; [reflexivity|]. split; [reflexivity|]. left.
      unfold remember_unscaled. rewrite Eu. reflexivity.
  - assert (Hp : pristine (imagenet (the_constants s))) by (left; assumption).
    pose proof (reconfigure_reduces s pct stack Hp Hlt) as E. cbv zeta in E.
    rewrite E. cbn [snd the_constants imagenet cifar_10 cifar_100].
    split; [reflexivity|]. split; [reflexivity|]. right.
    destruct (remember_unscaled_pristine _ Hp) as [Hu [Hn [Htr Hte]]].
    rewrite Hn, Htr, Hte in *. auto 10.
Qed.

Lemma reconfigure_all_cons call calls s :
  reconfigure_all (call :: calls) s =
  reconfigure_all calls
    (snd (reconfigure_dataset_constants (fst (fst call)) (snd (fst call))
            (snd call) s)).
Proof. reflexivity. Qed.

(** Once reduced, the constants are final. *)
Lemma reduced_is_final c :
  (exists u, UNSCALED_NUM_IMAGES (imagenet c) = Some u /\ u <> NUM_IMAGES (imagenet c)) ->
  UNSCALED_NUM_IMAGES (cifar_10 c) <> None ->
  UNSCALED_NUM_IMAGES (cifar_100 c) <> None ->
  forall calls s, the_constants s = c ->
    the_constants (reconfigure_all calls s) = c.
Proof.
  intros [u [Hu Hne]] H10 H100 calls.
  induction calls as [|[[d p] st] calls IH]; intros s Hs; [assumption|].
  rewrite reconfigure_all_cons. apply IH. cbn [fst snd].
  pose proof (reconfigure_constants s d p st) as H. cbv zeta in H.
  destruct H as [E10 [E100 Ei]]. rewrite Hs in *.
  assert (R : forall e, UNSCALED_NUM_IMAGES e <> None -> remember_unscaled e = e).
  { intros e He. unfold remember_unscaled.
    destruct (UNSCALED_NUM_IMAGES e); [reflexivity|contradiction]. }
  rewrite R in E10, E100 by assumption.
  assert (Ei' : imagenet (the_constants (snd (reconfigure_dataset_constants d p st s))) = imagenet c).
  { destruct Ei as [Ei|[_ [_ [[Hp|Hp] _]]]].
    - rewrite Ei. apply R. congruence.
    - congruence.
    - rewrite Hu in Hp. congruence. }
  destruct (the_constants (snd (reconfigure_dataset_constants d p st s))) as [i c10 c100].
  destruct c as [i' c10' c100']. cbn in *. congruence.
Qed.

(** X12.  The constants are reduced at most once: after the call that
    reduces the ImageNet entry to [pct] hundredths of its images, no later
    call, whatever its data set and percentage, changes any constant. *)
Theorem reduced_at_most_once s pct stack calls :
  pristine (imagenet (the_constants s)) ->
  0 < NUM_IMAGES (imagenet (the_constants s)) ->
  pct < 100 ->
  let s1 := snd (reconfigure_dataset_constants (Some "imagenet"%string) pct stack s) in
  NUM_IMAGES (imagenet (the_constants s1)) =
    pct * NUM_IMAGES (imagenet (the_constants s)) / 100 /\
  the_constants (reconfigure_all calls s1) = the_constants s1.
Proof.
  intros Hp Hpos Hlt. cbv zeta.
  pose proof (reconfigure_reduces s pct stack Hp Hlt) as E. cbv zeta in E.
  destruct (remember_unscaled_pristine _ Hp) as [Hu [Hn _]].
  destruct (remember_unscaled_fields (cifar_10 (the_constants s))) as [_ [_ [_ [H10 _]]]].
  destruct (remember_unscaled_fields (cifar_100 (the_constants s))) as [_ [_ [_ [H100 _]]]].
  rewrite E. cbn [snd the_constants imagenet reduced NUM_IMAGES].
  rewrite Hn. split; [reflexivity|].
  apply reduced_is_final; cbn; try assumption; try reflexivity.
  exists (NUM_IMAGES (imagenet (the_constants s))). split; [assumption|].
  intros Heq.
  assert (pct * NUM_IMAGES (imagenet (the_constants s)) / 100
          < NUM_IMAGES (imagenet (the_constants s))).
  { apply Z.div_lt_upper_bound; nia. }
  lia.
Qed.

Lemma reduced_at_most_once_witness :
  let s1 :=
    snd (reconfigure_dataset_constants (Some "imagenet"%string) 7 "" loaded_module) in
  NUM_IMAGES (imagenet (the_constants s1)) =
    7 * NUM_IMAGES (imagenet (the_constants loaded_module)) / 100 /\
  the_constants
    (reconfigure_all [(Some "imagenet", 50, ""); (None, 100, "");
                      (Some "cifar-10", 3, "")]%string s1) =
  the_constants s1.
Proof.
  apply (reduced_at_most_once loaded_module 7 ""
           [(Some "imagenet", 50, ""); (None, 100, "");
            (Some "cifar-10", 3, "")]%string).
  - left. reflexivity.
  - reflexivity.
  - reflexivity.
Defined.

Lemma reconfigure_all_app calls1 calls2 s :
  reconfigure_all (calls1 ++ calls2) s =
  reconfigure_all calls2 (reconfigure_all calls1 s).
Proof. apply fold_left_app. Qed.

(** X13.  The file lists that a reduction builds from their names are the
    first [n * pct // 100] of the [n] files listed before, for the training
    and for the test files alike. *)
Theorem reduction_keeps_a_prefix s pct stack nt ne :
  pristine (imagenet (the_constants s)) ->
  FILENAMES_TRAIN (imagenet (the_constants s)) = imagenet_train_files nt ->
  FILENAMES_TEST (imagenet (the_constants s)) = imagenet_test_files ne ->
  0 <= nt -> 0 <= ne -> 0 <= pct < 100 ->
  let d := imagenet (the_constants s) in
  let d' :=
    imagenet (the_constants
      (snd (reconfigure_dataset_constants (Some "imagenet"%string) pct stack s))) in
  FILENAMES_TRAIN d' = firstn (Z.to_nat (nt * pct / 100)) (FILENAMES_TRAIN d) /\
  FILENAMES_TEST d' = firstn (Z.to_nat (ne * pct / 100)) (FILENAMES_TEST d) /\
  len (FILENAMES_TRAIN d') = nt * pct / 100 /\
  len (FILENAMES_TEST d') = ne * pct / 100.
Proof.
  intros Hp Htr Hte Hnt Hne [H0 Hlt]. cbv zeta.
  pose proof (reconfigure_reduces s pct stack Hp Hlt) as E. cbv zeta in E.
  destruct (remember_unscaled_pristine _ Hp) as [_ [_ [Htr' Hte']]].
  rewrite E. cbn [snd the_constants imagenet reduced FILENAMES_TRAIN FILENAMES_TEST].
  rewrite Htr', Hte', Htr, Hte.
  unfold imagenet_train_files, imagenet_test_files.
  rewrite !len_range by assumption.
  assert (0 <= nt * pct / 100 <= nt).
  { split; [apply Z.div_pos; nia|]. apply Z.div_le_upper_bound; nia. }
  assert (0 <= ne * pct / 100 <= ne).
  { split; [apply Z.div_pos; nia|]. apply Z.div_le_upper_bound; nia. }
  rewrite !len_range by lia.
  rewrite <- !range_firstn by lia. auto.
Qed.

Lemma reduction_keeps_a_prefix_witness :
  let s := loaded_module in
  let d' :=
    imagenet (the_constants
      (snd (reconfigure_dataset_constants (Some "imagenet"%string) 7 "" s))) in
  FILENAMES_TRAIN d' = firstn (Z.to_nat (1024 * 7 / 100)) (imagenet_train_files 1024) /\
  FILENAMES_TEST d' = firstn (Z.to_nat (128 * 7 / 100)) (imagenet_test_files 128) /\
  len (FILENAMES_TRAIN d') = 1024 * 7 / 100 /\
  len (FILENAMES_TEST d') = 128 * 7 / 100.
Proof.
  apply (reduction_keeps_a_prefix
           loaded_module 7 "" 1024 128).
  - left. reflexivity.
  - reflexivity.
  - reflexivity.
  - lia.
  - lia.
  - lia.
Defined.

Lemma scaled_from_step s dataset pct stack u :
  0 <= u ->
  UNSCALED_NUM_IMAGES (remember_unscaled (imagenet (the_constants s))) = Some u ->
  NUM_IMAGES (imagenet (the_constants s)) <= u ->
  scaled_from u
    (imagenet (the_constants
       (snd (reconfigure_dataset_constants dataset pct stack s)))).
Proof.
  intros H0 Hu Hle.
  pose proof (reconfigure_constants s dataset pct stack) as H. cbv zeta in H.
  destruct H as [_ [_ [E|[_ [Hlt [Hp E]]]]]]; rewrite E; unfold scaled_from.
  - destruct (remember_unscaled_fields (imagenet (the_constants s))) as [Hn _].
    rewrite Hn. auto.
  - cbn [reduced UNSCALED_NUM_IMAGES NUM_IMAGES]. split; [assumption|].
    destruct (remember_unscaled_pristine _ Hp) as [Hu' _].
    assert (u = NUM_IMAGES (imagenet (the_constants s))) by congruence.
    subst u. apply Z.div_le_upper_bound; nia.
Qed.

Lemma scaled_from_all u calls : 0 <= u -> forall s,
  scaled_from u (imagenet (the_constants s)) ->
  scaled_from u (imagenet (the_constants (reconfigure_all calls s))).
Proof.
  intros H0. induction calls as [|[[d p] st] calls IH]; intros s Hs; [assumption|].
  rewrite reconfigure_all_cons. apply IH. cbn [fst snd].
  destruct Hs as [Hu Hle]. apply scaled_from_step; try assumption.
  unfold remember_unscaled. rewrite Hu. assumption.
Qed.

(** X14.  Whatever the calls, the first one records the image count of
    the ImageNet entry as [UNSCALED_NUM_IMAGES]; no later call changes the
    record, and [NUM_IMAGES] never exceeds it. *)
Theorem unscaled_count_is_kept s call calls :
  pristine (imagenet (the_constants s)) ->
  0 <= NUM_IMAGES (imagenet (the_constants s)) ->
  let d' := imagenet (the_constants (reconfigure_all (call :: calls) s)) in
  UNSCALED_NUM_IMAGES d' = Some (NUM_IMAGES (imagenet (the_constants s))) /\
  NUM_IMAGES d' <= NUM_IMAGES (imagenet (the_constants s)).
Proof.
  intros Hp H0. cbv zeta. rewrite reconfigure_all_cons.
  destruct call as [[d p] st]. cbn [fst snd].
  apply scaled_from_all; [assumption|].
  destruct (remember_unscaled_pristine _ Hp) as [Hu _].
  apply scaled_from_step; [assumption|assumption|lia].
Qed.

Lemma unscaled_count_is_kept_witness :
  let s := loaded_module in
  let d' :=
    imagenet (the_constants
      (reconfigure_all [(Some "cifar-10", 100, ""); (Some "imagenet", 50, "");
                        (Some "imagenet", 25, "")]%string s)) in
  UNSCALED_NUM_IMAGES d' = Some 1281167 /\ NUM_IMAGES d' <= 1281167.
Proof.
  apply (unscaled_count_is_kept
           loaded_module
           (Some "cifar-10"%string, 100, ""%string)
           [(Some "imagenet", 50, ""); (Some "imagenet", 25, "")]%string).
  - left. reflexivity.
  - cbn. lia.
Defined.

(** X15.  The CIFAR entries keep their image counts and file lists through
    any series of calls, whatever data set and percentage each names. *)
Theorem cifar_is_never_reduced calls : forall s,
  let c' := the_constants (reconfigure_all calls s) in
  NUM_IMAGES (cifar_10 c') = NUM_IMAGES (cifar_10 (the_constants s)) /\
  FILENAMES_TRAIN (cifar_10 c') = FILENAMES_TRAIN (cifar_10 (the_constants s)) /\
  FILENAMES_TEST (cifar_10 c') = FILENAMES_TEST (cifar_10 (the_constants s)) /\
  NUM_IMAGES (cifar_100 c') = NUM_IMAGES (cifar_100 (the_constants s)) /\
  FILENAMES_TRAIN (cifar_100 c') = FILENAMES_TRAIN (cifar_100 (the_constants s)) /\
  FILENAMES_TEST (cifar_100 c') = FILENAMES_TEST (cifar_100 (the_constants s)).
Proof.
  induction calls as [|[[d p] st] calls IH]; intros s; cbv zeta.
  - cbn. auto 10.
  - rewrite reconfigure_all_cons. cbn [fst snd].
    specialize (IH (snd (reconfigure_dataset_constants d p st s))).
    cbv zeta in IH.
    pose proof (reconfigure_constants s d p st) as H. cbv zeta in H.
    destruct H as [E10 [E100 _]]. rewrite E10, E100 in IH.
    destruct (remember_unscaled_fields (cifar_10 (the_constants s))) as [A [B [C _]]].
    destruct (remember_unscaled_fields (cifar_100 (the_constants s))) as [A' [B' [C' _]]].
    rewrite A, B, C, A', B', C' in IH. exact IH.
Qed.

(** X16.  With a percentage below 100 [_train_process] counts the
    iterations of an epoch on the reduced number of images, the one
    [reconfigure_dataset_constants] has just written, not on the total. *)
Theorem iterations_use_reduced_count s pct gbs stack :
  pristine (imagenet (the_constants s)) -> pct < 100 -> gbs <> 0 ->
  fst (iterations_per_epoch (Some "imagenet"%string) pct gbs stack s) =
  inr (pct * NUM_IMAGES (imagenet (the_constants s)) / 100 / gbs).
Proof.
  intros Hp Hlt Hg. unfold iterations_per_epoch, bind.
  pose proof (reconfigure_reduces s pct stack Hp Hlt) as E. cbv zeta in E.
  rewrite E. unfold lift, getitem, int_floordiv.
  cbn [String.eqb Ascii.eqb Bool.eqb imagenet reduced NUM_IMAGES fst].
  rewrite (proj2 (Z.eqb_neq gbs 0) Hg).
  destruct (remember_unscaled_pristine _ Hp) as [_ [Hn _]].
  rewrite Hn. reflexivity.
Qed.

Lemma iterations_use_reduced_count_witness :
  fst (iterations_per_epoch (Some "imagenet"%string) 7 256 ""
         loaded_module) =
  inr (7 * 1281167 / 100 / 256).
Proof.
  apply (iterations_use_reduced_count
           loaded_module 7 256 "").
  - left. reflexivity.
  - lia.
  - lia.
Defined.

(* ===================================================================== *)
(** * Properties of [set_defaults] *)
(* ===================================================================== *)

Ltac data_run :=
  unfold Data.get_opts, Data.set_opts, Data.print, modify, ret, raise, lift,
    bind;
  cbn [Data.the_opts Data.printed fst snd].

Lemma reconcile_flags_run s :
  exists s1, Data.reconcile_flags s = (inr tt, s1) /\
    Data.fused_preprocessing (Data.the_opts s1) =
      (Data.fused_preprocessing (Data.the_opts s)
       && match Data.dataset (Data.the_opts s) with
          | Some n => String.eqb n "imagenet"
          | None => false
          end)%bool /\
    Data.hostside_norm (Data.the_opts s1) =
      (Data.hostside_norm (Data.the_opts s)
       && negb (Data.fused_preprocessing (Data.the_opts s1))
       && negb (Data.eight_bit_io (Data.the_opts s)))%bool /\
    Data.eight_bit_io (Data.the_opts s1) = Data.eight_bit_io (Data.the_opts s) /\
    Data.dataset (Data.the_opts s1) = Data.dataset (Data.the_opts s) /\
    Data.generated_data (Data.the_opts s1) = Data.generated_data (Data.the_opts s) /\
    Data.synthetic_data (Data.the_opts s1) = Data.synthetic_data (Data.the_opts s) /\
    Data.cutmix_lambda (Data.the_opts s1) = Data.cutmix_lambda (Data.the_opts s) /\
    Data.mixup_alpha (Data.the_opts s1) = Data.mixup_alpha (Data.the_opts s) /\
    Data.data_dir (Data.the_opts s1) = Data.data_dir (Data.the_opts s) /\
    Data.latency (Data.the_opts s1) = Data.latency (Data.the_opts s) /\
    Data.summary_str (Data.the_opts s1) = Data.summary_str (Data.the_opts s) /\
    Data.pipeline_num_parallel (Data.the_opts s1) =
      Data.pipeline_num_parallel (Data.the_opts s).
Proof.
  destruct s as [o pr].
  destruct o as [fp ds hn eb gd sd cl ma dd lat ss pnp].
  unfold Data.reconcile_flags. cbn [Data.the_opts].
  destruct (match ds with
            | Some n => String.eqb n "imagenet"
            | None => false
            end) eqn:E;
    destruct fp, hn, eb; data_run; cbn; rewrite ?E; cbn;
    eexists; (split; [reflexivity|]); cbn; rewrite ?E; auto 20.
Qed.

Lemma finish_run m s :
  exists s', Data.finish m s = (inr tt, s') /\
    Data.fused_preprocessing (Data.the_opts s') = Data.fused_preprocessing (Data.the_opts s) /\
    Data.hostside_norm (Data.the_opts s') = Data.hostside_norm (Data.the_opts s) /\
    Data.eight_bit_io (Data.the_opts s') = Data.eight_bit_io (Data.the_opts s) /\
    Data.dataset (Data.the_opts s') = Data.dataset (Data.the_opts s) /\
    Data.generated_data (Data.the_opts s') = Data.generated_data (Data.the_opts s) /\
    Data.synthetic_data (Data.the_opts s') = Data.synthetic_data (Data.the_opts s) /\
    Data.cutmix_lambda (Data.the_opts s') = Data.cutmix_lambda (Data.the_opts s) /\
    Data.mixup_alpha (Data.the_opts s') = Data.mixup_alpha (Data.the_opts s) /\
    Data.data_dir (Data.the_opts s') =
      (if Data.nonempty (Data.data_dir (Data.the_opts s))
       then Some (Data.os_path_normpath m
                    (Data.str_of (Data.data_dir (Data.the_opts s))))
       else Data.data_dir (Data.the_opts s)) /\
    Data.latency (Data.the_opts s') =
      (Data.latency (Data.the_opts s)
       && negb (Data.synthetic_data (Data.the_opts s)))%bool /\
    Data.pipeline_num_parallel (Data.the_opts s') =
      match Data.pipeline_num_parallel (Data.the_opts s) with
      | Some n => if n =? 0 then Some 48 else Some n
      | None => Some 48
      end /\
    Data.printed s' =
      Data.printed s ++
      (if (Data.synthetic_data (Data.the_opts s)
           && Data.latency (Data.the_opts s))%bool
       then ["latency calculation is incompatible with synthetic data mode. Disabling latency."%string]
       else []).
Proof.
  destruct s as [o pr].
  destruct o as [fp ds hn eb gd sd cl ma dd lat ss pnp].
  unfold Data.finish. cbn [Data.the_opts].
  destruct (Data.nonempty dd) eqn:E;
    destruct pnp as [n|]; [destruct (n =? 0) eqn:En| |destruct (n =? 0) eqn:En|];
    destruct gd, sd, lat; data_run; cbn; rewrite ?E; cbn; rewrite ?En; cbn;
    eexists; (split; [reflexivity|]); cbn; rewrite ?app_nil_r; auto 20.
Qed.

Lemma settle_generated m consts s :
  (Data.generated_data (Data.the_opts s)
   || Data.synthetic_data (Data.the_opts s))%bool = true ->
  Data.settle_data m consts s =
  ((if is_None (Data.dataset (Data.the_opts s))
    then inl (ValueError Data.no_dataset_msg) else inr tt),
   {| Data.the_opts := Data.set_mixing Data.one Data.zero (Data.the_opts s);
      Data.printed :=
        Data.printed s ++
        (if (SFltb (Data.cutmix_lambda (Data.the_opts s)) Data.one
             || SFltb Data.zero (Data.mixup_alpha (Data.the_opts s)))%bool
         then ["Cutmix and Mixup do not do anything when using generated or synthetic data. Turning off."%string]
         else []) |}).
Proof.
  intros H. unfold Data.settle_data. data_run. rewrite H.
  destruct (SFltb (Data.cutmix_lambda (Data.the_opts s)) Data.one
            || SFltb Data.zero (Data.mixup_alpha (Data.the_opts s)))%bool;
    data_run; cbn [Data.set_mixing Data.dataset];
    destruct (Data.dataset (Data.the_opts s)); cbn [is_None];
    rewrite ?app_nil_r; try reflexivity; destruct s; reflexivity.
Qed.

Lemma in_list_In x l : in_list x l = true -> In x l.
Proof.
  unfold in_list. rewrite existsb_exists. intros [y [Hy E]].
  apply String.eqb_eq in E. subst. assumption.
Qed.

Lemma search_sound d f walk root :
  Data.search d f walk = Some root ->
  exists files, In (root, files) walk /\ basename root = d /\ In f files.
Proof.
  induction walk as [|[r files] walk IH]; [discriminate|]. cbn [Data.search].
  destruct (String.eqb (basename r) d && in_list f files)%bool eqn:E.
  - intros [= <-]. apply andb_prop in E. destruct E as [E1 E2].
    apply String.eqb_eq in E1. exists files.
    split; [left; reflexivity|]. split; [assumption|apply in_list_In; assumption].
  - intros H. destruct (IH H) as [fs [H1 H2]]. exists fs. split; [right|]; assumption.
Qed.

Ltac settle_step H :=
  cbn -[getitem contains lower os_path_join Data.default_dirs Data.search
        Data.first_item Data.str_of] in H.

Ltac settle_case H :=
  match type of H with
  | context [if ?b then _ else _] =>
      lazymatch b with
      | context [if _ then _ else _] => fail
      | context [match _ with _ => _ end] => fail
      | _ => destruct b eqn:?
      end
  | context [match ?x with _ => _ end] =>
      lazymatch x with
      | context [if _ then _ else _] => fail
      | context [match _ with _ => _ end] => fail
      | _ => destruct x eqn:?
      end
  end.

Lemma settle_real m consts s s' :
  (Data.generated_data (Data.the_opts s)
   || Data.synthetic_data (Data.the_opts s))%bool = false ->
  Data.settle_data m consts s = (inr tt, s') ->
  exists start name entry f dir,
    (Data.data_dir (Data.the_opts s) = Some start \/
     Data.data_dir (Data.the_opts s) = None /\ Data.DATA_DIR m = Some start) /\
    (Data.dataset (Data.the_opts s) = Some name \/
     Data.dataset (Data.the_opts s) = None /\ inferred start = Some name) /\
    getitem consts (Some name) = inr entry /\
    Data.first_item (FILENAMES_TRAIN entry) = inr f /\
    (dir = start /\ Data.os_path_exists m (os_path_join start f) = true \/
     Data.os_path_exists m (os_path_join start f) = false /\
     exists default,
       Data.default_dirs name = inr default /\
       Data.search default f (Data.os_walk m start) = Some dir) /\
    s' = {| Data.the_opts :=
              Data.set_data_dir (Some dir)
                (Data.set_dataset (Some name) (Data.the_opts s));
            Data.printed := Data.printed s |}.
Proof.
  destruct s as [o pr].
  destruct o as [fp ds hn eb gd sd cl ma dd lat ss pnp].
  cbn [Data.the_opts Data.generated_data Data.synthetic_data Data.data_dir
       Data.dataset Data.printed].
  intros Hg H. unfold Data.settle_data in H.
  unfold Data.get_opts, Data.set_opts, Data.print, modify, ret, raise, lift,
    bind in H.
  settle_step H. rewrite Hg in H.
  destruct dd as [start|]; destruct ds as [name|];
    repeat (settle_step H; settle_case H; try discriminate).
  all: settle_step H; injection H as <-; cbn [Data.str_of] in *.
  all: rewrite ?negb_true_iff, ?negb_false_iff in *.
  all: do 5 eexists.
  all: split;
    [first [left; reflexivity | right; split; reflexivity]|].
  all: split;
    [first [left; reflexivity
           | right; split; [reflexivity|];
             unfold inferred;
             repeat match goal with
                    | E : ?b = _ |- context [if ?b then _ else _] => rewrite E
                    end;
             reflexivity]|].
  all: split; [eassumption|].
  all: split; [eassumption|].
  all: split;
    [first [left; split; [reflexivity|eassumption]
           | right; split; [eassumption|];
             eexists; split; eassumption]|].
  all: reflexivity.
Qed.

Lemma set_defaults_parts m consts s :
  exists s1, Data.reconcile_flags s = (inr tt, s1) /\
    Data.set_defaults m consts s =
    match Data.settle_data m consts s1 with
    | (inl e, s2) => (inl e, s2)
    | (inr _, s2) => Data.finish m s2
    end.
Proof.
  destruct (reconcile_flags_run s) as [s1 [E _]]. exists s1.
  split; [assumption|]. unfold Data.set_defaults, bind. rewrite E. reflexivity.
Qed.


Lemma finish_ext m m' s :
  (forall p, Data.os_path_normpath m p = Data.os_path_normpath m' p) ->
  Data.finish m s = Data.finish m' s.
Proof.
  intros Hn. destruct s as [o pr].
  destruct o as [fp ds hn eb gd sd cl ma dd lat ss pnp].
  unfold Data.finish. cbn [Data.the_opts].
  destruct (Data.nonempty dd) eqn:E;
    destruct pnp as [n|]; [destruct (n =? 0) eqn:En| |destruct (n =? 0) eqn:En|];
    destruct gd, sd, lat; data_run; cbn; rewrite ?E; cbn; rewrite ?En; cbn;
    rewrite ?Hn; reflexivity.
Qed.

(** X18.  With generated or synthetic data [set_defaults] asks nothing of
    the file system, the environment or the constants: two machines that
    agree on [os.path.normpath] give the same result.  It raises the
    [ValueError] exactly when no data set is named, and in either case
    leaves cutmix at [1.] and mixup at [0.]. *)
Theorem generated_data_needs_no_files m m' consts consts' s :
  (Data.generated_data (Data.the_opts s)
   || Data.synthetic_data (Data.the_opts s))%bool = true ->
  (forall p, Data.os_path_normpath m p = Data.os_path_normpath m' p) ->
  Data.set_defaults m consts s = Data.set_defaults m' consts' s /\
  (Data.dataset (Data.the_opts s) = None ->
     fst (Data.set_defaults m consts s) = inl (ValueError Data.no_dataset_msg)) /\
  (Data.dataset (Data.the_opts s) <> None ->
     fst (Data.set_defaults m consts s) = inr tt) /\
  Data.cutmix_lambda (Data.the_opts (snd (Data.set_defaults m consts s))) = Data.one /\
  Data.mixup_alpha (Data.the_opts (snd (Data.set_defaults m consts s))) = Data.zero.
Proof.
  intros Hg Hn.
  destruct (set_defaults_parts m consts s) as [s1 [E1 E]].
  destruct (set_defaults_parts m' consts' s) as [s1' [E1' E']].
  assert (s1' = s1) by congruence. subst s1'. rewrite E, E'. clear E E' E1'.
  destruct (reconcile_flags_run s) as [s1' [E1' F1]].
  assert (s1' = s1) by congruence. subst s1'. clear E1'.
  destruct F1 as (_ & _ & _ & Fds & Fgd & Fsd & _).
  assert (Hg1 : (Data.generated_data (Data.the_opts s1)
                 || Data.synthetic_data (Data.the_opts s1))%bool = true)
    by (rewrite Fgd, Fsd; assumption).
  rewrite (settle_generated m consts s1 Hg1), (settle_generated m' consts' s1 Hg1).
  rewrite Fds.
  destruct (Data.dataset (Data.the_opts s)) as [n|]; cbn [is_None].
  - match goal with
    | |- context [Data.finish m ?s2] =>
        destruct (finish_run m s2) as [s3 [E3 F3]];
        rewrite <- (finish_ext m m' s2 Hn), E3
    end.
    destruct F3 as (_ & _ & _ & _ & _ & _ & Gcl & Gma & _).
    cbn [fst snd]. rewrite Gcl, Gma. cbn.
    repeat split; auto; discriminate.
  - cbn. repeat split; auto; congruence.
Qed.

(** X19.  With real data [set_defaults] returns only when it has seen the
    first training file of the data set: in the directory it was given (by
    [--data-dir], else by [DATA_DIR]), or in a directory that [os.walk]
    lists below it under the data set's default name and that becomes the
    data directory. *)
Theorem data_is_located m consts s s' :
  (Data.generated_data (Data.the_opts s)
   || Data.synthetic_data (Data.the_opts s))%bool = false ->
  Data.set_defaults m consts s = (inr tt, s') ->
  exists start name entry f dir,
    (Data.data_dir (Data.the_opts s) = Some start \/
     Data.data_dir (Data.the_opts s) = None /\ Data.DATA_DIR m = Some start) /\
    Data.dataset (Data.the_opts s') = Some name /\
    getitem consts (Some name) = inr entry /\
    Data.first_item (FILENAMES_TRAIN entry) = inr f /\
    Data.data_dir (Data.the_opts s') =
      Some (if String.eqb dir "" then dir else Data.os_path_normpath m dir) /\
    (dir = start /\ Data.os_path_exists m (os_path_join start f) = true \/
     Data.os_path_exists m (os_path_join start f) = false /\
     exists files,
       In (dir, files) (Data.os_walk m start) /\ In f files /\
       Data.default_dirs name = inr (basename dir)).
Proof.
  intros Hg H.
  destruct (set_defaults_parts m consts s) as [s1 [E1 E]]. rewrite E in H. clear E.
  destruct (reconcile_flags_run s) as [s1' [E1' F1]].
  assert (s1' = s1) by congruence. subst s1'. clear E1'.
  destruct F1 as (_ & _ & _ & Fds & Fgd & Fsd & _ & _ & Fdd & _).
  destruct (Data.settle_data m consts s1) as [[e|[]] s2] eqn:E2; [discriminate|].
  destruct (finish_run m s2) as [s3 [E3 F3]].
  assert (s3 = s') by congruence. subst s3. clear E3 H.
  destruct F3 as (_ & _ & _ & Gds & _ & _ & _ & _ & Gdd & _).
  rewrite <- Fgd, <- Fsd in Hg.
  destruct (settle_real m consts s1 s2 Hg E2)
    as (start & name & entry & f & dir & Hstart & _ & Hentry & Hf & Hdir & ->).
  rewrite Fdd in Hstart.
  exists start, name, entry, f, dir.
  split; [assumption|]. split; [rewrite Gds; reflexivity|].
  split; [assumption|]. split; [assumption|].
  split.
  { rewrite Gdd. cbn. destruct (String.eqb dir ""); reflexivity. }
  destruct Hdir as [Hdir|[Hno [default [Hd Hs]]]]; [left; assumption|right].
  split; [assumption|].
  destruct (search_sound _ _ _ _ Hs) as [files [Hin [Hb Hfin]]].
  exists files. subst default. auto.
Qed.









Lemma generated_data_needs_no_files_witness :
  Data.set_defaults example_machine DATASET_CONSTANTS synthetic_data_store =
  Data.set_defaults bare_machine (the_constants (reconfigure_all
    [(Some "imagenet"%string, 7, ""%string)] loaded_module))
    synthetic_data_store /\
  (Data.dataset (Data.the_opts synthetic_data_store) = None ->
     fst (Data.set_defaults example_machine DATASET_CONSTANTS
            synthetic_data_store) =
     inl (ValueError Data.no_dataset_msg)) /\
  (Data.dataset (Data.the_opts synthetic_data_store) <> None ->
     fst (Data.set_defaults example_machine DATASET_CONSTANTS
            synthetic_data_store) = inr tt) /\
  Data.cutmix_lambda
    (Data.the_opts
       (snd (Data.set_defaults example_machine DATASET_CONSTANTS
               synthetic_data_store))) = Data.one /\
  Data.mixup_alpha
    (Data.the_opts
       (snd (Data.set_defaults example_machine DATASET_CONSTANTS
               synthetic_data_store))) = Data.zero.
Proof.
  apply (generated_data_needs_no_files example_machine bare_machine
           DATASET_CONSTANTS
           (the_constants (reconfigure_all
              [(Some "imagenet"%string, 7, ""%string)] loaded_module))
           synthetic_data_store).
  - reflexivity.
  - reflexivity.
Defined.

Lemma data_is_located_witness :
  exists start name entry f dir,
    (Data.data_dir (Data.the_opts real_data_store) = Some start \/
     Data.data_dir (Data.the_opts real_data_store) = None /\
     Data.DATA_DIR example_machine = Some start) /\
    Data.dataset
      (Data.the_opts
         (snd (Data.set_defaults example_machine DATASET_CONSTANTS
                 real_data_store))) = Some name /\
    getitem DATASET_CONSTANTS (Some name) = inr entry /\
    Data.first_item (FILENAMES_TRAIN entry) = inr f /\
    Data.data_dir
      (Data.the_opts
         (snd (Data.set_defaults example_machine DATASET_CONSTANTS
                 real_data_store))) =
      Some (if String.eqb dir "" then dir
            else Data.os_path_normpath example_machine dir) /\
    (dir = start /\
     Data.os_path_exists example_machine (os_path_join start f) = true \/
     Data.os_path_exists example_machine (os_path_join start f) = false /\
     exists files,
       In (dir, files) (Data.os_walk example_machine start) /\ In f files /\
       Data.default_dirs name = inr (basename dir)).
Proof.
  apply (data_is_located example_machine DATASET_CONSTANTS real_data_store
           (snd (Data.set_defaults example_machine DATASET_CONSTANTS
                   real_data_store))).
  - reflexivity.
  - vm_compute. reflexivity.
Defined.


(* ===================================================================== *)
(** * What later calls and the guard leave alone *)
(* ===================================================================== *)

Lemma remember_unscaled_known d :
  UNSCALED_NUM_IMAGES d <> None -> remember_unscaled d = d.
Proof.
  intros H. unfold remember_unscaled.
  destruct (UNSCALED_NUM_IMAGES d); [reflexivity|contradiction].
Qed.

(** X21.  After the call that reduced the ImageNet entry, a later call
    returns the constants as they are and prints nothing: it writes one
    warning, with its stack, when it names ImageNet with a percentage below
    100, and nothing at all otherwise. *)
Theorem later_calls_only_warn s pct stack dataset' pct' stack' :
  pristine (imagenet (the_constants s)) ->
  0 < NUM_IMAGES (imagenet (the_constants s)) ->
  pct < 100 ->
  let s1 :=
    snd (reconfigure_dataset_constants (Some "imagenet"%string) pct stack s) in
  reconfigure_dataset_constants dataset' pct' stack' s1 =
  (inr (the_constants s1),
   {| the_constants := the_constants s1;
      written :=
        written s1 ++
        (if (match dataset' with
             | Some n => String.eqb n "imagenet"
             | None => false
             end && (pct' <? 100))%bool
         then [Warned (already_invoked stack')]
         else []) |}).
Proof.
  intros Hp Hpos Hlt. cbv zeta.
  pose proof (reconfigure_reduces s pct stack Hp Hlt) as E. cbv zeta in E.
  destruct (remember_unscaled_pristine _ Hp) as [Hu [Hn _]].
  destruct (remember_unscaled_fields (cifar_10 (the_constants s)))
    as [_ [_ [_ [H10 _]]]].
  destruct (remember_unscaled_fields (cifar_100 (the_constants s)))
    as [_ [_ [_ [H100 _]]]].
  rewrite E. cbn [snd]. clear E.
  set (s1 := {| the_constants := _; written := _ |}).
  assert (Hu1 : UNSCALED_NUM_IMAGES (imagenet (the_constants s1)) =
                Some (NUM_IMAGES (imagenet (the_constants s))))
    by (cbn; assumption).
  assert (Hne : NUM_IMAGES (imagenet (the_constants s)) <>
                NUM_IMAGES (imagenet (the_constants s1))).
  { cbn. rewrite Hn.
    assert (pct * NUM_IMAGES (imagenet (the_constants s)) / 100
            < NUM_IMAGES (imagenet (the_constants s)))
      by (apply Z.div_lt_upper_bound; nia).
    lia. }
  assert (R10 : remember_unscaled (cifar_10 (the_constants s1)) =
                cifar_10 (the_constants s1))
    by (apply remember_unscaled_known; cbn; assumption).
  assert (R100 : remember_unscaled (cifar_100 (the_constants s1)) =
                 cifar_100 (the_constants s1))
    by (apply remember_unscaled_known; cbn; assumption).
  assert (Ri : remember_unscaled (imagenet (the_constants s1)) =
               imagenet (the_constants s1))
    by (apply remember_unscaled_known; rewrite Hu1; discriminate).
  assert (Eta : forall c : constants,
            {| imagenet := imagenet c; cifar_10 := cifar_10 c;
               cifar_100 := cifar_100 c |} = c)
    by (intros []; reflexivity).
  destruct (match dataset' with
            | Some n => String.eqb n "imagenet"
            | None => false
            end && (pct' <? 100))%bool eqn:Eb.
  - apply andb_prop in Eb. destruct Eb as [Ed Ep].
    destruct dataset' as [n|]; [|discriminate].
    apply String.eqb_eq in Ed. subst n. apply Z.ltb_lt in Ep.
    pose proof (reconfigure_skips s1 pct' stack' _ Hu1 Hne Ep) as E.
    cbv zeta in E. rewrite R10, R100, Eta in E. exact E.
  - assert (Hd : dataset' <> Some "imagenet"%string \/ 100 <= pct').
    { apply andb_false_iff in Eb. destruct Eb as [Ed|Ep].
      - left. intros ->. discriminate.
      - right. apply Z.ltb_ge. assumption. }
    pose proof (reconfigure_passes s1 dataset' pct' stack' Hd) as E.
    cbv zeta in E. rewrite Ri, R10, R100, Eta in E.
    rewrite app_nil_r. exact E.
Qed.

Lemma later_calls_only_warn_witness :
  let s1 :=
    snd (reconfigure_dataset_constants (Some "imagenet"%string) 7 ""
           loaded_module) in
  reconfigure_dataset_constants (Some "imagenet"%string) 50 "train.py" s1 =
  (inr (the_constants s1),
   {| the_constants := the_constants s1;
      written :=
        written s1 ++
        (if (String.eqb "imagenet" "imagenet" && (50 <? 100))%bool
         then [Warned (already_invoked "train.py")]
         else []) |}).
Proof.
  apply (later_calls_only_warn loaded_module 7 "" (Some "imagenet"%string) 50
           "train.py").
  - left. reflexivity.
  - reflexivity.
  - reflexivity.
Defined.

Section GuardEdges.
Context {ndarray scalar : Type}.
Variable zero : scalar.
Variable np_mean : ndarray -> scalar.
Variable times_100 : scalar -> scalar.
Variable flatten_last : ndarray -> exn + scalar.
Variable scalar_mul : scalar -> scalar -> scalar.
Variable feed_dict_lr : Z -> exn + scalar.
Variable world : outside ndarray scalar.
Variable o : opts scalar.

(** X22.  The [try] around the training step changes nothing but the class
    of an [OpError]: it makes no call of its own, a result passes as it is,
    and so does an exception of any other class. *)
Theorem guard_changes_only_op_errors i iterations_per_step h :
  let suite :=
    training_suite zero np_mean times_100 flatten_last scalar_mul
      feed_dict_lr world o i iterations_per_step h in
  let guarded :=
    run_training zero np_mean times_100 flatten_last scalar_mul
      feed_dict_lr world o i iterations_per_step h in
  snd guarded = snd suite /\
  (forall r, fst suite = inr r -> fst guarded = inr r) /\
  (forall e, fst suite = inl e -> is_OpError e = false -> fst guarded = inl e).
Proof.
  cbv zeta. unfold run_training, try_except.
  destruct (training_suite _ _ _ _ _ _ _ _ _ _ h) as [[e|r] h'].
  - destruct (is_OpError e) eqn:He.
    + destruct e; try discriminate He. cbn.
      split; [reflexivity|]. split; [discriminate|].
      intros e' E H'. injection E as <-. discriminate H'.
    + cbn. split; [reflexivity|]. split; [discriminate|].
      intros e' E _. assumption.
  - cbn. split; [reflexivity|]. split; [intros r' E; assumption|discriminate].
Qed.

End GuardEdges.
